(** * Trainer (ppcls/engine/trainer_logo.py): training loop and recall@1 evaluation

    A shallow embedding of [Trainer.train] and [Trainer.eval].

    - Tensors are lists: a feature matrix is a list of rows, a label column
      a list of integers.
    - Tensor arithmetic is kept abstract in the class [Scalar]; two instances
      are given, IEEE binary32 (the framework's default dtype, through the
      standard library's [SpecFloat]) and the real numbers (the exact
      arithmetic that binary32 rounds).
    - Python exceptions are values of [result]; the effects that outlive an
      exception (log lines, checkpoints written, optimizer calls) are
      recorded in a trace of [event]s.
    - The wrapped framework (network forward pass, autograd, optimizer,
      dataloaders, checkpoint files) enters as section variables; so do
      the two tensor kernels of [Trainer.eval] whose result the source
      does not determine: [paddle.argsort] (order of equal elements) and
      [paddle.matmul] (order of accumulation and rounding of an entry). *)

From Stdlib Require Import String.
From Stdlib Require Import List Arith Lia Bool ZArith.
From Stdlib Require Import Permutation Sorted Relations.
From Stdlib Require Import Reals Lra.
From Stdlib Require Import Floats.SpecFloat.
From Stdlib Require DecimalString.
Import ListNotations.

Set Implicit Arguments.

(* ================================================================== *)
(** ** Python exceptions and results *)

Inductive exn : Type :=
| ZeroDivisionError   (* [a % 0] *)
| KeyError            (* missing dict key *)
| AttributeError      (* attribute of [None] *)
| IndexError          (* index past the end of an axis *)
| InvalidArgument.    (* shape error raised by a framework operator *)

Inductive result (A : Type) : Type :=
| Ok (a : A)
| Raise (e : exn).

Arguments Ok {A} a.
Arguments Raise {A} e.

Definition rbind {A B} (r : result A) (k : A -> result B) : result B :=
  match r with
  | Ok a => k a
  | Raise e => Raise e
  end.

Definition is_ok {A} (r : result A) : bool :=
  match r with Ok _ => true | Raise _ => false end.

Declare Scope result_scope.
Delimit Scope result_scope with res.
Notation "x <- c ;; k" := (rbind c (fun x => k))
  (at level 61, c at next level, right associativity) : result_scope.

(** [a % b] on non-negative Python integers. *)
Definition pymod (a b : nat) : result nat :=
  match b with
  | 0 => Raise ZeroDivisionError
  | S _ => Ok (a mod b)
  end.

(** All-or-nothing map: the first exception aborts. *)
Fixpoint traverse {A B} (f : A -> result B) (xs : list A) : result (list B) :=
  match xs with
  | [] => Ok []
  | x :: xs' =>
      match f x with
      | Raise e => Raise e
      | Ok y =>
          match traverse f xs' with
          | Raise e => Raise e
          | Ok ys => Ok (y :: ys)
          end
      end
  end.

(* ================================================================== *)
(** ** Scalars *)

(** The arithmetic a tensor element supports in this file.  No law is
    assumed: every statement proved for an arbitrary [Scalar] holds for
    rounded and for exact arithmetic alike. *)
Class Scalar (F : Type) : Type := {
  f0 : F;                       (* 0.0 *)
  f1 : F;                       (* 1.0 *)
  fadd : F -> F -> F;
  fmul : F -> F -> F;
  fdiv : F -> F -> F;
  fsqrt : F -> F;
  fgtb : F -> F -> bool;        (* [a > b] *)
  fleb : F -> F -> bool;        (* [a <= b] *)
  f_of_nat : nat -> F           (* int -> float conversion *)
}.

(** IEEE 754 binary32: 24 bits of precision, [emax = 128]. *)
Module Float32.
Definition prec : Z := 24.
Definition emax : Z := 128.
Definition t : Type := spec_float.
Definition of_Z (z : Z) : t := binary_normalize prec emax z 0 false.
(** [m * 2^e] rounded to binary32. *)
Definition of_Z_exp (m e : Z) : t := binary_normalize prec emax m e false.
Definition zero : t := S754_zero false.
Definition one : t := of_Z 1.
Definition add : t -> t -> t := SFadd prec emax.
Definition mul : t -> t -> t := SFmul prec emax.
Definition div : t -> t -> t := SFdiv prec emax.
Definition sqrt : t -> t := SFsqrt prec emax.
Definition gtb (a b : t) : bool := SFltb b a.
Definition leb (a b : t) : bool := SFleb a b.
Definition is_nan (a : t) : bool :=
  match a with S754_nan => true | _ => false end.
End Float32.

#[export] Instance Scalar_float32 : Scalar Float32.t := {|
  f0 := Float32.zero;
  f1 := Float32.one;
  fadd := Float32.add;
  fmul := Float32.mul;
  fdiv := Float32.div;
  fsqrt := Float32.sqrt;
  fgtb := Float32.gtb;
  fleb := Float32.leb;
  f_of_nat := fun n => Float32.of_Z (Z.of_nat n)
|}.

(** Exact arithmetic. *)
Definition Rgtb (a b : R) : bool := if Rlt_dec b a then true else false.
Definition Rleb (a b : R) : bool := if Rle_dec a b then true else false.

#[export] Instance Scalar_R : Scalar R := {|
  f0 := 0%R;
  f1 := 1%R;
  fadd := Rplus;
  fmul := Rmult;
  fdiv := Rdiv;
  fsqrt := sqrt;
  fgtb := Rgtb;
  fleb := Rleb;
  f_of_nat := INR
|}.

(* ================================================================== *)
(** ** Tensor helpers *)

(** Class labels are integer tensors. *)
Definition Lab : Type := Z.

(** [paddle.concat([acc, x])] guarded by the [if acc is None] of the
    accumulation loops. *)
Definition cat {A} (acc : option (list A)) (xs : list A) : list A :=
  match acc with
  | None => xs
  | Some a => a ++ xs
  end.

(** Use of a variable that may still be [None]. *)
Definition deref {A} (v : option A) : result A :=
  match v with
  | None => Raise AttributeError
  | Some a => Ok a
  end.

(** [n] consecutive pieces of [k] rows each. *)
Fixpoint chunks {A} (k n : nat) (xs : list A) : list (list A) :=
  match n with
  | 0 => []
  | S n' => firstn k xs :: chunks k n' (skipn k xs)
  end.

(** [paddle.split(x, num_or_sections=n)] along axis 0 with an integer
    [n]: [n] equal blocks; the operator rejects a row count that [n] does
    not divide. *)
Definition split {A} (n : nat) (xs : list A) : result (list (list A)) :=
  match n with
  | 0 => Raise InvalidArgument
  | S _ =>
      if (length xs mod n =? 0)
      then Ok (chunks (length xs / n) n xs)
      else Raise InvalidArgument
  end.

(** [paddle.gather(x, index)] along axis 0. *)
Definition gather {A} (x : list A) (index : list nat) : result (list A) :=
  traverse (fun i => match nth_error x i with
                     | Some a => Ok a
                     | None => Raise InvalidArgument
                     end) index.

(** [t[:, 0]] of a tensor with [width] columns. *)
Definition first_column (width : nat) (t : list (list nat)) : result (list nat) :=
  match width with
  | 0 => Raise IndexError
  | S _ => traverse (fun row => match row with
                                | [] => Raise IndexError
                                | i :: _ => Ok i
                                end) t
  end.

Section Eval.
Context {F : Type} {SF : Scalar F}.

(** Images are opaque. *)
Variable Img : Type.

(** A batch as the dataloader yields it: images with their labels. *)
Definition Batch : Type := list (Img * Lab).

(** [self.model(batch[0], batch[1])["features"]] in evaluation mode, one
    feature row per sample. *)
Variable features : Img -> Lab -> list F.

(** [paddle.argsort(row, descending=True)]; the framework does not fix
    the order of equal elements. *)
Variable argsort : list F -> list nat.

(** Entry [(i, j)] of [paddle.matmul(x, y, transpose_y=True)], computed
    from row [i] of [x] and row [j] of [y].  It is the dot product of
    the two rows as the framework's kernel evaluates it: in which order
    the kernel accumulates the products, and whether it fuses a
    multiplication with an addition, is not fixed by the source, and in
    rounded arithmetic the entry depends on both. *)
Variable matmul_entry : list F -> list F -> F.

Definition fsum (xs : list F) : F := fold_left fadd xs f0.

(** [paddle.sqrt(paddle.sum(paddle.square(row)))] (lines 246-247). *)
Definition feas_norm (row : list F) : F :=
  fsqrt (fsum (map (fun x => fmul x x) row)).

(** [paddle.divide(batch_feas, feas_norm)] on one row (line 248). *)
Definition normalize (row : list F) : list F :=
  map (fun x => fdiv x (feas_norm row)) row.

Definition batch_feas (batch : Batch) : list (list F) :=
  map (fun s => normalize (features (fst s) (snd s))) batch.

Definition batch_labels (batch : Batch) : list Lab := map snd batch.

(** The accumulation loops of lines 239-266 and 271-297. *)
Fixpoint embed_loop (print_batch_step idx : nat) (batches : list Batch)
    (all_feas : option (list (list F))) (all_labs : option (list Lab))
    : result (option (list (list F)) * option (list Lab)) :=
  match batches with
  | [] => Ok (all_feas, all_labs)
  | batch :: rest =>
      let all_feas := Some (cat all_feas (batch_feas batch)) in
      let all_labs := Some (cat all_labs (batch_labels batch)) in
      (_ <- pymod idx print_batch_step ;;
       embed_loop print_batch_step (S idx) rest all_feas all_labs)%res
  end.

(** [paddle.matmul(block_fea, all_feas, transpose_y=True)]. *)
Definition similarities (block_fea all_feas : list (list F)) : list (list F) :=
  map (fun q => map (matmul_entry q) all_feas) block_fea.

(** Lines 307-312 on one block (or on the whole query matrix). *)
Definition nearest_labels (all_feas : list (list F)) (all_labs : list Lab)
    (block_fea : list (list F)) : result (list Lab) :=
  (let similarities_matrix := similarities block_fea all_feas in
   let indicies := map argsort similarities_matrix in
   indicies <- first_column (length all_feas) indicies ;;
   gather all_labs indicies)%res.

(** The loop of lines 306-317. *)
Fixpoint choose_loop (all_feas : list (list F)) (all_labs : list Lab)
    (fea_blocks : list (list (list F))) (choosen_label : option (list Lab))
    : result (option (list Lab)) :=
  match fea_blocks with
  | [] => Ok choosen_label
  | block_fea :: rest =>
      (choosen_label_tmp <- nearest_labels all_feas all_labs block_fea ;;
       choose_loop all_feas all_labs rest
                   (Some (cat choosen_label choosen_label_tmp)))%res
  end.

(** [paddle.cast(paddle.equal(a, b), 'float32')] on columns of equal
    height. *)
Definition equal_cast (a b : list Lab) : list F :=
  map (fun p => if Z.eqb (fst p) (snd p) then f1 else f0) (combine a b).

(** [paddle.mean]. *)
Definition mean (xs : list F) : F := fdiv (fsum xs) (f_of_nat (length xs)).

(** [Trainer.eval] (lines 221-324); [epoch_id] is not used by the body. *)
Definition eval (print_batch_step num_split : nat)
    (gallery_dataloader query_dataloader : list Batch) : result F :=
  (g <- embed_loop print_batch_step 0 gallery_dataloader None None ;;
   all_feas <- deref (fst g) ;;
   q <- embed_loop print_batch_step 0 query_dataloader None None ;;
   query_feas <- deref (fst q) ;;
   fea_blocks <- split num_split query_feas ;;
   all_labs <- deref (snd g) ;;
   choosen_label <- choose_loop all_feas all_labs fea_blocks None ;;
   choosen_label <- deref choosen_label ;;
   query_labs <- deref (snd q) ;;
   let result := equal_cast choosen_label query_labs in
   Ok (mean result))%res.

(** *** Reference notions for the statements *)

(** The embedded gallery or query set: all rows of all batches. *)
Definition all_rows (loader : list Batch) : list (list F) :=
  concat (map batch_feas loader).

Definition all_labels (loader : list Batch) : list Lab :=
  concat (map batch_labels loader).

(** The dot product accumulated from left to right, every product and
    every partial sum rounded.  In exact arithmetic, where the order of
    accumulation is immaterial, this is the entry of the matrix product;
    in rounded arithmetic it is one kernel among others. *)
Definition dot (a b : list F) : F :=
  fsum (map (fun p => fmul (fst p) (snd p)) (combine a b)).

(** Any two entries of [row] are comparable.  In binary32 this says that
    no entry is NaN (lemma [comparable_float32_iff]); in exact
    arithmetic it always holds (lemma [comparable_R]). *)
Definition comparable (row : list F) : Prop :=
  forall a b, In a row -> In b row -> fgtb a b = true \/ fleb a b = true.

(** [idx] sorts [row] in descending order: it lists every position once
    and no later position holds a strictly greater value. *)
Definition descending_argsort (row : list F) (idx : list nat) : Prop :=
  Permutation idx (seq 0 (length row)) /\
  StronglySorted (fun i j => fgtb (nth j row f0) (nth i row f0) = false) idx.

(** Position of the nearest gallery row: head of the descending sort of
    the query's similarity row. *)
Definition nearest_index (all_feas : list (list F)) (q : list F) : nat :=
  hd 0 (argsort (map (matmul_entry q) all_feas)).

(** One query's chosen label. *)
Definition nearest_label (all_feas : list (list F)) (all_labs : list Lab)
    (q : list F) : result Lab :=
  match all_feas with
  | [] => Raise IndexError
  | _ :: _ =>
      match argsort (map (matmul_entry q) all_feas) with
      | [] => Raise IndexError
      | i :: _ =>
          match nth_error all_labs i with
          | Some l => Ok l
          | None => Raise InvalidArgument
          end
      end
  end.

(** Recall@1 as the glossary defines it, on embedded sets. *)
Definition recall_at_1 (all_feas : list (list F)) (all_labs : list Lab)
    (query_feas : list (list F)) (query_labs : list Lab) : F :=
  mean (map (fun p =>
               if Z.eqb (nth (nearest_index all_feas (fst p)) all_labs 0%Z)
                        (snd p)
               then f1 else f0)
            (combine query_feas query_labs)).
End Eval.

(** A reference [argsort]: stable insertion of positions, descending. *)
Section ArgsortDesc.
Context {F : Type} {SF : Scalar F}.

Fixpoint insert_desc (row : list F) (i : nat) (sorted : list nat) : list nat :=
  match sorted with
  | [] => [i]
  | j :: rest =>
      if fgtb (nth i row f0) (nth j row f0)
      then i :: j :: rest
      else j :: insert_desc row i rest
  end.

Definition argsort_desc (row : list F) : list nat :=
  fold_left (fun acc i => insert_desc row i acc) (seq 0 (length row)) [].
End ArgsortDesc.

(* ================================================================== *)
(** ** AverageMeter and the [output_info] dict *)

Section Meter.
Variable F : Type.
Context {SF : Scalar F}.

(** Modelled from the spec: [ppcls.utils.misc.AverageMeter] is imported
    by the trainer but its source is not part of this file.  The spec
    calls what it does "metric averaging": the batch-size-weighted
    running average of the values it was updated with.  The meter keeps
    the weighted sum and the total weight; [avg] is their quotient. *)
Record AverageMeter : Type := {
  am_val : F;
  am_sum : F;
  am_count : nat;
  am_avg : F
}.

(** Modelled from the spec: a fresh [AverageMeter(key, '7.5f')]. *)
Definition AverageMeter_new : AverageMeter :=
  {| am_val := f0; am_sum := f0; am_count := 0; am_avg := f0 |}.

(** Modelled from the spec: [AverageMeter.update(val, n)]. *)
Definition AverageMeter_update (m : AverageMeter) (val : F) (n : nat)
    : AverageMeter :=
  let sum := fadd (am_sum m) (fmul val (f_of_nat n)) in
  let count := am_count m + n in
  {| am_val := val; am_sum := sum; am_count := count;
     am_avg := fdiv sum (f_of_nat count) |}.

(** A Python dict with string keys, in insertion order. *)
Definition dict (V : Type) : Type := list (string * V).

Definition dict_mem {V} (key : string) (d : dict V) : bool :=
  existsb (fun kv => String.eqb (fst kv) key) d.

Definition dict_get {V} (key : string) (d : dict V) : result V :=
  match find (fun kv => String.eqb (fst kv) key) d with
  | Some kv => Ok (snd kv)
  | None => Raise KeyError
  end.

Definition dict_alter {V} (f : V -> V) (key : string) (d : dict V) : dict V :=
  map (fun kv => if String.eqb (fst kv) key then (fst kv, f (snd kv)) else kv) d.

(** Lines 154-157 (and 162-165) for one key. *)
Definition record_value (output_info : dict AverageMeter)
    (key : string) (val : F) (batch_size : nat) : dict AverageMeter :=
  let output_info :=
    if negb (dict_mem key output_info)
    then output_info ++ [(key, AverageMeter_new)]
    else output_info in
  dict_alter (fun m => AverageMeter_update m val batch_size) key output_info.

(** [for key in d: ...] over a loss or metric dict. *)
Definition record_dict (output_info : dict AverageMeter) (d : dict F)
    (batch_size : nat) : dict AverageMeter :=
  fold_left (fun oi kv => record_value oi (fst kv) (snd kv) batch_size)
            d output_info.

(** The [(key, output_info[key].avg)] pairs of a log line. *)
Definition metric_msg (output_info : dict AverageMeter) : dict F :=
  map (fun kv => (fst kv, am_avg (snd kv))) output_info.

(** *** Reference notions: weighted averages over a batch history *)

(** What one batch contributes: its loss and metric values and its size. *)
Definition batch_record : Type := (dict F * nat)%type.

(** Every [update(val, n)] call a history causes, oldest first, as
    (key, val, n). *)
Definition updates (history : list batch_record)
    : list (string * F * nat) :=
  flat_map (fun r => map (fun kv => (fst kv, snd kv, snd r)) (fst r)) history.

Definition update_key (u : string * F * nat) : string := fst (fst u).

Definition values_in (key : string) (us : list (string * F * nat))
    : list (F * nat) :=
  map (fun u => (snd (fst u), snd u))
      (filter (fun u => String.eqb (update_key u) key) us).

(** The [(value, batch_size)] pairs recorded under [key], oldest first. *)
Definition values_of (key : string) (history : list batch_record)
    : list (F * nat) :=
  values_in key (updates history).

Definition weighted_sum (vs : list (F * nat)) : F :=
  fold_left (fun s v => fadd s (fmul (fst v) (f_of_nat (snd v)))) vs f0.

Definition total_weight (vs : list (F * nat)) : nat :=
  fold_left (fun c v => c + snd v) vs 0.

(** Batch-size-weighted average. *)
Definition weighted_average (vs : list (F * nat)) : F :=
  fdiv (weighted_sum vs) (f_of_nat (total_weight vs)).

(** Keys in order of first appearance. *)
Fixpoint first_seen (seen : list string) (keys : list string) : list string :=
  match keys with
  | [] => seen
  | k :: rest =>
      if existsb (String.eqb k) seen
      then first_seen seen rest
      else first_seen (seen ++ [k]) rest
  end.

Definition keys_of (history : list batch_record) : list string :=
  first_seen [] (map update_key (updates history)).

(** A meter agrees with the updates recorded under its key. *)
Definition meter_agrees (us : list (string * F * nat))
    (kv : string * AverageMeter) : Prop :=
  let vs := values_in (fst kv) us in
  am_sum (snd kv) = weighted_sum vs /\
  am_count (snd kv) = total_weight vs /\
  am_avg (snd kv) = weighted_average vs.

Definition meters_agree (output_info : dict AverageMeter)
    (us : list (string * F * nat)) : Prop :=
  map fst output_info = first_seen [] (map update_key us) /\
  Forall (meter_agrees us) output_info.

(** The meters after a history, starting from [output_info]. *)
Definition record_all (output_info : dict AverageMeter)
    (history : list batch_record) : dict AverageMeter :=
  fold_left (fun oi r => record_dict oi (fst r) (snd r)) history output_info.

Definition averages (history : list batch_record) : dict F :=
  map (fun k => (k, weighted_average (values_of k history))) (keys_of history).
End Meter.

(* ================================================================== *)
(** ** Traces *)

Section Events.
Variable F : Type.

(** Effects of [Trainer.train] that are visible from outside. *)
Inductive event : Type :=
| InitModel (path : string)              (* init_model(...) *)
| EvalCall (epoch_id : nat)              (* self.eval(epoch_id) *)
| ModelTrain                             (* self.model.train() *)
| Forward (epoch_id iter_id : nat)       (* self.model(batch[0], batch[1]) *)
| LogIter (epoch_id iter_id : nat) (msg : dict F)
| LogAvg (epoch_id : nat) (msg : dict F)
| Backward                               (* loss_dict["loss"].backward() *)
| OptimizerStep                          (* optimizer.step() *)
| ClearGrad                              (* optimizer.clear_grad() *)
| LrStep                                 (* lr_sch.step() *)
| SaveModel (prefix : string) (metric : F) (epoch : nat).

(** A computation that logs events and may raise; the events emitted
    before an exception stay in the trace. *)
Definition M (A : Type) : Type := (list event * result A)%type.

Definition ret {A} (a : A) : M A := ([], Ok a).

Definition bind {A B} (m : M A) (k : A -> M B) : M B :=
  match m with
  | (t, Ok a) => let (t', r) := k a in (t ++ t', r)
  | (t, Raise e) => (t, Raise e)
  end.

Definition emit (e : event) : M unit := ([e], Ok tt).

Definition lift {A} (r : result A) : M A := ([], r).
End Events.

Arguments InitModel {F} path.
Arguments EvalCall {F} epoch_id.
Arguments ModelTrain {F}.
Arguments Forward {F} epoch_id iter_id.
Arguments Backward {F}.
Arguments OptimizerStep {F}.
Arguments ClearGrad {F}.
Arguments LrStep {F}.
Arguments ret {F A} a.
Arguments lift {F A} r.

Declare Scope trace_scope.
Delimit Scope trace_scope with tr.
Notation "x <- c ;; k" := (bind c (fun x => k))
  (at level 61, c at next level, right associativity) : trace_scope.
Notation "c ;;; k" := (bind c (fun _ => k))
  (at level 61, right associativity) : trace_scope.

(* ================================================================== *)
(** ** [Trainer.train] *)

(** The entries of [config["Global"]] the loop reads. *)
Record Config : Type := {
  epochs : nat;
  print_batch_step : nat;
  save_interval : nat;
  (** [0] stands for the falsy settings ([False], [None], [0]), [1] for
      [True], [k] for "every [k] epochs". *)
  eval_during_train : nat;
  checkpoints : option string;
  num_split : nat
}.

(** [range(a, b)]. *)
Definition range (a b : nat) : list nat := seq a (b - a).

(** ["ppcls_epoch_{}".format(epoch_id)]. *)
Definition periodic_prefix (epoch_id : nat) : string :=
  ("ppcls_epoch_" ++ DecimalString.NilEmpty.string_of_uint (Nat.to_uint epoch_id))%string.

Definition best_prefix : string := "best_model"%string.

Section Train.
Variable F : Type.
Context {SF : Scalar F}.
Variable Img : Type.

(** Everything the framework mutates in place: model parameters and
    buffers, gradients, optimizer and learning-rate scheduler state. *)
Variable Net : Type.
(** The output dict of the network. *)
Variable Out : Type.

Variable forward : Net -> Batch Img -> Net * Out.
Variable loss_func : Out -> list Lab -> dict F.
Variable metric_func : option (Out -> list Lab -> dict F).
Variable backward : Net -> Out -> Net.
Variable optimizer_step : Net -> Net.
Variable clear_grad : Net -> Net.
Variable lr_step : Net -> Net.

(** [best_metric]: a dict with the keys "metric" and "epoch". *)
Record BestMetric : Type := { metric : F; epoch : nat }.

(** The metric info a checkpoint carries; [dict.update] overwrites the
    keys that are present. *)
Record MetricInfo : Type := { mi_metric : option F; mi_epoch : option nat }.

Definition dict_update (b : BestMetric) (mi : MetricInfo) : BestMetric :=
  {| metric := match mi_metric mi with Some m => m | None => metric b end;
     epoch := match mi_epoch mi with Some e => e | None => epoch b end |}.

(** [init_model(config["Global"], model, optimizer)]: loads parameters
    and optimizer state from the checkpoint path and returns the saved
    metric info, if any. *)
Variable init_model : string -> Net -> Net * option MetricInfo.

(** [self.eval(epoch_id)] on the current network. *)
Variable self_eval : Net -> nat -> result F.

(** [train_dataloader()], one finite pass per epoch (a shuffling loader
    yields a different pass each time). *)
Variable train_dataloader : nat -> list (Batch Img).

(** The local variables of [train] that the loops update. *)
Record Locals : Type := {
  net : Net;
  best_metric : BestMetric;
  output_info : dict (AverageMeter F);
  global_step : nat
}.

(** The values one batch feeds to the meters: the loss dict followed by
    the metric dict, and the batch size. *)
Definition batch_values (n : Net) (batch : Batch Img) : batch_record F :=
  let out := snd (forward n batch) in
  let labels := batch_labels batch in
  (loss_func out labels ++
   match metric_func with
   | None => []
   | Some mf => mf out labels
   end, length batch).

(** The network after one full batch (lines 150 and 178-181). *)
Definition net_after_batch (n : Net) (batch : Batch Img) : Net :=
  let (n1, out) := forward n batch in
  lr_step (clear_grad (optimizer_step (backward n1 out))).

(** Body of the batch loop, lines 145-181. *)
Definition train_batch (cfg : Config) (epoch_id iter_id : nat)
    (batch : Batch Img) (st : Locals) : M F Locals :=
  (let batch_size := length batch in
   let labels := batch_labels batch in
   let global_step := S (global_step st) in
   emit (Forward epoch_id iter_id) ;;;
   let (n1, out) := forward (net st) batch in
   let loss_dict := loss_func out labels in
   let output_info := record_dict (output_info st) loss_dict batch_size in
   let output_info :=
     match metric_func with
     | None => output_info
     | Some mf => record_dict output_info (mf out labels) batch_size
     end in
   r <- lift (pymod iter_id (print_batch_step cfg)) ;;
   (if r =? 0
    then emit (LogIter epoch_id iter_id (metric_msg output_info))
    else ret tt) ;;;
   lift (dict_get "loss" loss_dict) ;;;
   emit Backward ;;;
   emit OptimizerStep ;;;
   emit ClearGrad ;;;
   emit LrStep ;;;
   ret {| net := lr_step (clear_grad (optimizer_step (backward n1 out)));
          best_metric := best_metric st;
          output_info := output_info;
          global_step := global_step |})%tr.

(** [for iter_id, batch in enumerate(train_dataloader())]. *)
Fixpoint batch_loop (cfg : Config) (epoch_id iter_id : nat)
    (batches : list (Batch Img)) (st : Locals) : M F Locals :=
  match batches with
  | [] => ret st
  | batch :: rest =>
      (st <- train_batch cfg epoch_id iter_id batch st ;;
       batch_loop cfg epoch_id (S iter_id) rest st)%tr
  end.

(** The condition of lines 192-194. *)
Definition eval_gate (cfg : Config) (epoch_id : nat) : bool :=
  negb (eval_during_train cfg =? 0) &&
  (epoch_id mod eval_during_train cfg =? 0).

(** Lines 191-205: returns [acc] and the updated [best_metric]. *)
Definition eval_and_save_best (cfg : Config) (epoch_id : nat) (acc : F)
    (st : Locals) : M F (F * Locals) :=
  (if eval_gate cfg epoch_id
   then
     emit (EvalCall epoch_id) ;;;
     acc <- lift (self_eval (net st) epoch_id) ;;
     if fgtb acc (metric (best_metric st))
     then
       let best := {| metric := acc; epoch := epoch_id |} in
       emit (SaveModel best_prefix (metric best) (epoch best)) ;;;
       ret (acc, {| net := net st; best_metric := best;
                    output_info := output_info st;
                    global_step := global_step st |})
     else ret (acc, st)
   else ret (acc, st))%tr.

(** Body of the epoch loop, lines 141-215. *)
Definition train_epoch (cfg : Config) (epoch_id : nat) (st : Locals)
    : M F Locals :=
  (emit (EvalCall 0) ;;;
   acc <- lift (self_eval (net st) 0) ;;
   let acc := f0 in
   emit ModelTrain ;;;
   st <- batch_loop cfg epoch_id 0 (train_dataloader epoch_id) st ;;
   emit (LogAvg epoch_id (metric_msg (output_info st))) ;;;
   let st := {| net := net st; best_metric := best_metric st;
                output_info := []; global_step := global_step st |} in
   p <- eval_and_save_best cfg epoch_id acc st ;;
   let (acc, st) := p in
   r <- lift (pymod epoch_id (save_interval cfg)) ;;
   (if r =? 0
    then emit (SaveModel (periodic_prefix epoch_id) acc epoch_id)
    else ret tt) ;;;
   ret st)%tr.

Fixpoint epoch_loop (cfg : Config) (epoch_ids : list nat) (st : Locals)
    : M F Locals :=
  match epoch_ids with
  | [] => ret st
  | epoch_id :: rest =>
      (st <- train_epoch cfg epoch_id st ;;
       epoch_loop cfg rest st)%tr
  end.

(** Lines 123-137: the initial bookkeeping and the optional resume. *)
Definition initial_best : BestMetric := {| metric := f0; epoch := 0 |}.

Definition resume (cfg : Config) (net0 : Net) : M F Locals :=
  (let best_metric := initial_best in
   let output_info := [] in
   let global_step := 0 in
   match checkpoints cfg with
   | Some path =>
       emit (InitModel path) ;;;
       let (n, metric_info) := init_model path net0 in
       ret {| net := n;
              best_metric := match metric_info with
                             | Some mi => dict_update best_metric mi
                             | None => best_metric
                             end;
              output_info := output_info; global_step := global_step |}
   | None =>
       ret {| net := net0; best_metric := best_metric;
              output_info := output_info; global_step := global_step |}
   end)%tr.

(** [Trainer.train], from line 123 on; [net0] is the network, optimizer
    and scheduler as lines 106-118 built them. *)
Definition train (cfg : Config) (net0 : Net) : M F Locals :=
  (st <- resume cfg net0 ;;
   epoch_loop cfg
     (range (epoch (best_metric st) + 1) (epochs cfg + 1)) st)%tr.

(** *** Reference notions for the statements *)

(** The per-batch records of one pass, with the network evolving. *)
Fixpoint batch_history (n : Net) (batches : list (Batch Img))
    : list (batch_record F) :=
  match batches with
  | [] => []
  | batch :: rest =>
      batch_values n batch :: batch_history (net_after_batch n batch) rest
  end.

(** The four calls that make one parameter update. *)
Definition update_sequence : list (event F) :=
  [Backward; OptimizerStep; ClearGrad; LrStep].

Definition is_update_event (e : event F) : bool :=
  match e with
  | Backward | OptimizerStep | ClearGrad | LrStep => true
  | _ => false
  end.

Definition is_forward (e : event F) : bool :=
  match e with Forward _ _ => true | _ => false end.

Definition is_epoch_start (e : event F) : bool :=
  match e with EvalCall 0 => true | _ => false end.

(** Checkpoints written under [prefix]. *)
Definition saves_with (prefix : string) (t : list (event F))
    : list (F * nat) :=
  flat_map (fun e => match e with
                     | SaveModel p m k =>
                         if String.eqb p prefix then [(m, k)] else []
                     | _ => []
                     end) t.

(** Checkpoints written under any prefix other than "best_model". *)
Definition periodic_saves (t : list (event F)) : list (string * F * nat) :=
  flat_map (fun e => match e with
                     | SaveModel p m k =>
                         if String.eqb p best_prefix then [] else [(p, m, k)]
                     | _ => []
                     end) t.

(** Epochs whose end-of-epoch average line was logged. *)
Definition logged_epochs (t : list (event F)) : list nat :=
  flat_map (fun e => match e with LogAvg k _ => [k] | _ => [] end) t.

(** The state of the bookkeeping right after a resume. *)
Definition resumed_best (cfg : Config) (net0 : Net) : BestMetric :=
  match checkpoints cfg with
  | Some path =>
      match snd (init_model path net0) with
      | Some mi => dict_update initial_best mi
      | None => initial_best
      end
  | None => initial_best
  end.

Definition resumed_net (cfg : Config) (net0 : Net) : Net :=
  match checkpoints cfg with
  | Some path => fst (init_model path net0)
  | None => net0
  end.

(** The recall of the gated evaluation of epoch [epoch_id] started in
    state [st], if the epoch gets that far and the evaluation returns. *)
Definition gated_recall (cfg : Config) (epoch_id : nat) (st : Locals)
    : option F :=
  match self_eval (net st) 0 with
  | Raise _ => None
  | Ok _ =>
      match snd (batch_loop cfg epoch_id 0 (train_dataloader epoch_id) st) with
      | Raise _ => None
      | Ok st1 =>
          if eval_gate cfg epoch_id
          then match self_eval (net st1) epoch_id with
               | Ok acc => Some acc
               | Raise _ => None
               end
          else None
      end
  end.

(** The value of [acc] when line 208 is reached. *)
Definition epoch_acc (cfg : Config) (epoch_id : nat) (st : Locals) : F :=
  match gated_recall cfg epoch_id st with
  | Some acc => acc
  | None => f0
  end.

(** Number of batches the passes of the given epochs hold. *)
Definition total_batches (epoch_ids : list nat) : nat :=
  list_sum (map (fun e => length (train_dataloader e)) epoch_ids).

(** What the batch loop of epoch [epoch_id] may emit, when it starts at
    iteration [iter0] with meters [oi0] and [h] is the history of the
    pass. *)
Definition batch_event_ok (cfg : Config) (epoch_id iter0 : nat)
    (oi0 : dict (AverageMeter F)) (h : list (batch_record F))
    (ev : event F) : Prop :=
  match ev with
  | Forward e i => e = epoch_id /\ iter0 <= i < iter0 + length h
  | LogIter e i msg =>
      e = epoch_id /\ iter0 <= i < iter0 + length h /\
      i mod print_batch_step cfg = 0 /\
      msg = metric_msg (record_all oi0 (firstn (S (i - iter0)) h))
  | Backward | OptimizerStep | ClearGrad | LrStep => True
  | _ => False
  end.

(** What epoch [epoch_id] may log when its batch loop starts with network
    [n]: every logged value is the weighted average over the batches of
    this epoch processed so far. *)
Definition epoch_log_ok (cfg : Config) (epoch_id : nat) (n : Net)
    (ev : event F) : Prop :=
  match ev with
  | LogIter e i msg =>
      e = epoch_id /\
      i < length (train_dataloader e) /\
      i mod print_batch_step cfg = 0 /\
      msg = averages (firstn (S i) (batch_history n (train_dataloader e)))
  | LogAvg e msg =>
      e = epoch_id /\
      msg = averages (batch_history n (train_dataloader e))
  | _ => True
  end.

(** The network one full pass of epoch [e] leaves behind. *)
Definition net_after_epoch (n : Net) (e : nat) : Net :=
  fold_left net_after_batch (train_dataloader e) n.

(** The network with which epoch [e] starts, in a run over the epochs
    [epoch_ids] that starts with network [n]. *)
Fixpoint net_at (n : Net) (epoch_ids : list nat) (e : nat) : Net :=
  match epoch_ids with
  | [] => n
  | e' :: rest =>
      if e' =? e then n else net_at (net_after_epoch n e') rest e
  end.

(** What a run over [epoch_ids] may log. *)
Definition run_log_ok (cfg : Config) (n : Net) (epoch_ids : list nat)
    (ev : event F) : Prop :=
  match ev with
  | LogIter e _ _ | LogAvg e _ =>
      In e epoch_ids /\ epoch_log_ok cfg e (net_at n epoch_ids e) ev
  | _ => True
  end.

(** [output_info.clear()]. *)
Definition cleared (st : Locals) : Locals :=
  {| net := net st; best_metric := best_metric st;
     output_info := []; global_step := global_step st |}.

(** [b'] is [b] or has a strictly greater metric. *)
Definition best_step (b b' : BestMetric) : Prop :=
  b' = b \/ fgtb (metric b') (metric b) = true.
End Train.

(* ================================================================== *)
(** ** The trainer: [train] with [self.eval] bound to [Trainer.eval] *)

Section Trainer.
Variable F : Type.
Context {SF : Scalar F}.
Variables Img Net Out : Type.
Variable forward : Net -> Batch Img -> Net * Out.
Variable loss_func : Out -> list Lab -> dict F.
Variable metric_func : option (Out -> list Lab -> dict F).
Variable backward : Net -> Out -> Net.
Variables optimizer_step clear_grad lr_step : Net -> Net.
Variable init_model : string -> Net -> Net * option (MetricInfo F).
Variable train_dataloader : nat -> list (Batch Img).

(** The features the current network computes in evaluation mode. *)
Variable features : Net -> Img -> Lab -> list F.
Variable argsort : list F -> list nat.
Variable matmul_entry : list F -> list F -> F.
(** The "Test" (gallery) and "Eval" (query) dataloaders. *)
Variables gallery_dataloader query_dataloader : list (Batch Img).

Definition Trainer_eval (cfg : Config) (n : Net) (epoch_id : nat) : result F :=
  eval (features n) argsort matmul_entry (print_batch_step cfg) (num_split cfg)
       gallery_dataloader query_dataloader.

Definition Trainer_train (cfg : Config) (net0 : Net) : M F (Locals F Net) :=
  train forward loss_func metric_func backward optimizer_step clear_grad
        lr_step init_model (Trainer_eval cfg) train_dataloader cfg net0.
End Trainer.

(* ================================================================== *)
(** ** A small concrete trainer in binary32 *)

Module Example.
Definition F : Type := Float32.t.
(** Two-pixel images; the network is one integer weight. *)
Definition Img : Type := (nat * nat)%type.
Definition Net : Type := nat.
Definition Out : Type := nat.

Definition fl (n : nat) : F := Float32.of_Z (Z.of_nat n).

Definition features (w : Net) (img : Img) (_ : Lab) : list F :=
  [fl (fst img + w); fl (snd img)].

Definition forward (w : Net) (batch : Batch Img) : Net * Out :=
  (w, w + length batch).
Definition loss_func (out : Out) (labels : list Lab) : dict F :=
  [("loss"%string, fl out)].
Definition metric_func : option (Out -> list Lab -> dict F) :=
  Some (fun out labels => [("top1"%string, fl (length labels))]).
Definition backward (w : Net) (_ : Out) : Net := w.
Definition optimizer_step (w : Net) : Net := S w.
Definition clear_grad (w : Net) : Net := w.
Definition lr_step (w : Net) : Net := w.
Definition init_model (_ : string) (w : Net) : Net * option (MetricInfo F) :=
  (w + 10, Some {| mi_metric := Some (fl 0); mi_epoch := Some 1 |}).

Definition train_dataloader (_ : nat) : list (Batch Img) :=
  [[((1, 2), 7%Z)]; [((3, 4), 8%Z); ((0, 1), 7%Z)]].
Definition gallery : list (Batch Img) :=
  [[((3, 4), 7%Z); ((1, 0), 8%Z)]; [((0, 2), 9%Z)]].
Definition query : list (Batch Img) :=
  [[((6, 8), 7%Z); ((0, 5), 8%Z)]; [((5, 1), 8%Z); ((1, 1), 7%Z)]].
Definition query3 : list (Batch Img) :=
  [[((6, 8), 7%Z); ((0, 5), 8%Z); ((5, 1), 8%Z)]].

Definition cfg : Config :=
  {| epochs := 3; print_batch_step := 1; save_interval := 2;
     eval_during_train := 1; checkpoints := None; num_split := 2 |}.

Definition cfg_resume : Config :=
  {| epochs := 3; print_batch_step := 1; save_interval := 2;
     eval_during_train := 1; checkpoints := Some "output/latest"%string;
     num_split := 2 |}.

(** The kernels of the example: stable insertion sort, and the dot
    product accumulated from left to right. *)
Definition eval_fn (c : Config) : Net -> nat -> result F :=
  Trainer_eval features argsort_desc dot gallery query c.

Definition run (c : Config) (w : Net) : M F (Locals F Net) :=
  Trainer_train forward loss_func metric_func backward optimizer_step
                clear_grad lr_step init_model train_dataloader
                features argsort_desc dot gallery query c w.

(** An evaluator that returns another value at the start-of-epoch call
    [self.eval(0)] and agrees with [eval_fn] elsewhere. *)
Definition eval_other (c : Config) (n : Net) (epoch_id : nat) : result F :=
  match epoch_id with
  | 0 => match eval_fn c n 0 with
         | Ok _ => Ok (fl 42)
         | Raise e => Raise e
         end
  | S _ => eval_fn c n epoch_id
  end.

Definition run_with (ev : Net -> nat -> result F) (c : Config) (w : Net)
    : M F (Locals F Net) :=
  train forward loss_func metric_func backward optimizer_step
        clear_grad lr_step init_model ev train_dataloader c w.

(** The embedded gallery and query sets of the initial network. *)
Definition gallery_feas : list (list F) := all_rows (features 0) gallery.
Definition query_feas : list (list F) := all_rows (features 0) query.



(** A gallery whose second image has the all-zero feature row, and a
    query set of one image equal to the first gallery image. *)
Definition gallery_zero : list (Batch Img) :=
  [[((1, 0), 7%Z); ((0, 0), 8%Z)]].
Definition query_one : list (Batch Img) := [[((1, 0), 7%Z)]].

(** An [argsort] that lists the positions of the NaNs first and the
    other positions in descending order after them. *)
Definition argsort_nan_first (row : list F) : list nat :=
  let idx := argsort_desc row in
  filter (fun i => Float32.is_nan (nth i row f0)) idx ++
  filter (fun i => negb (Float32.is_nan (nth i row f0))) idx.
End Example.

(* ================================================================== *)
(** ** The builders of loss and metric, and further reference notions *)

From Stdlib Require DecimalNat.
From Stdlib Require Import Ascii.

(** [str.upper] and [str.lower] on one ASCII character. *)
Definition ascii_upper (c : ascii) : ascii :=
  let n := nat_of_ascii c in
  if (97 <=? n) && (n <=? 122) then ascii_of_nat (n - 32) else c.

Definition ascii_lower (c : ascii) : ascii :=
  let n := nat_of_ascii c in
  if (65 <=? n) && (n <=? 90) then ascii_of_nat (n + 32) else c.

Fixpoint string_lower (s : string) : string :=
  match s with
  | EmptyString => EmptyString
  | String c rest => String (ascii_lower c) (string_lower rest)
  end.

(** [str.capitalize] on an ASCII string: first character upper-cased, the
    rest lower-cased. *)
Definition capitalize (s : string) : string :=
  match s with
  | EmptyString => EmptyString
  | String c rest => String (ascii_upper c) (string_lower rest)
  end.

(** Every character is below 128. *)
Fixpoint is_ascii_string (s : string) : bool :=
  match s with
  | EmptyString => true
  | String c rest => (nat_of_ascii c <? 128) && is_ascii_string rest
  end.

Section Builders.
Variables Cfg Built : Type.

(** The common body of [_build_metric_info] and [_build_loss_info]
    (lines 80-102): [config] maps a capitalised mode to a sub-config or to
    [None]; [build] is [build_metrics] or [build_loss]. *)
Definition build_info (build : Cfg -> Built)
    (config : dict (option Cfg)) (mode : string) : option Built :=
  let mode := capitalize mode in
  if dict_mem mode config
  then match dict_get mode config with
       | Ok (Some c) => Some (build c)
       | _ => None
       end
  else None.
End Builders.

Section BuildersOfTrainer.
Variables MetricCfg Metric LossCfg Loss : Type.
Variable build_metrics : MetricCfg -> Metric.
Variable build_loss : LossCfg -> Loss.

Definition _build_metric_info (metric_config : dict (option MetricCfg))
    (mode : string) : option Metric :=
  build_info build_metrics metric_config mode.

Definition _build_loss_info (loss_config : dict (option LossCfg))
    (mode : string) : option Loss :=
  build_info build_loss loss_config mode.
End BuildersOfTrainer.

Section BestSaves.
Variable F : Type.
Context {SF : Scalar F}.

(** Each metric of the list is strictly greater than the one before it,
    and the first than [b]. *)
Fixpoint increasing_from (b : F) (ms : list F) : Prop :=
  match ms with
  | [] => True
  | m :: rest => fgtb m b = true /\ increasing_from m rest
  end.

(** The bookkeeping after a list of "best_model" saves, starting from
    [b]: the metric and epoch of the last save. *)
Definition after_saves (b : BestMetric F) (saves : list (F * nat))
    : BestMetric F :=
  fold_left (fun _ s => {| metric := fst s; epoch := snd s |}) saves b.
End BestSaves.

(** Further configurations of the concrete trainer. *)
Module Example2.
Import Example.

(** Resuming at the final epoch: the checkpoint says epoch 1 of 1. *)
Definition cfg_done : Config :=
  {| epochs := 1; print_batch_step := 1; save_interval := 2;
     eval_during_train := 1; checkpoints := Some "output/latest"%string;
     num_split := 2 |}.

Definition cfg_zero_print : Config :=
  {| epochs := 3; print_batch_step := 0; save_interval := 2;
     eval_during_train := 1; checkpoints := None; num_split := 2 |}.

Definition cfg_zero_save : Config :=
  {| epochs := 3; print_batch_step := 1; save_interval := 0;
     eval_during_train := 1; checkpoints := None; num_split := 2 |}.

Definition cfg_no_eval : Config :=
  {| epochs := 3; print_batch_step := 1; save_interval := 2;
     eval_during_train := 0; checkpoints := None; num_split := 2 |}.

(** A loss function whose dict has no "loss" entry. *)
Definition loss_func_unnamed (out : Out) (labels : list Lab) : dict F :=
  [("ce"%string, fl out)].

Definition run_unnamed (c : Config) (w : Net) : M F (Locals F Net) :=
  train forward loss_func_unnamed metric_func backward optimizer_step
        clear_grad lr_step init_model (eval_fn c) train_dataloader c w.

(** A one-row gallery and query set over the reals. *)
Definition features_R (img : R) (_ : Lab) : list R := [img; 1%R].
Definition argsort_R (_ : list R) : list nat := [0].
Definition gallery_R : list (Batch R) := [[(1%R, 7%Z)]].
Definition query_R : list (Batch R) := [[(2%R, 7%Z)]].

Definition loss_config : dict (option nat) :=
  [("Train"%string, Some 3); ("Eval"%string, None)].
End Example2.

(* ================================================================== *)
(** ** Generic list and result lemmas *)

Lemma traverse_Forall2 {A B} (f : A -> result B) xs ys :
  traverse f xs = Ok ys <-> Forall2 (fun x y => f x = Ok y) xs ys.
Proof.
  revert ys; induction xs as [|x xs IH]; intros ys; simpl.
  - split; intros E.
    + injection E as <-. constructor.
    + inversion E. reflexivity.
  - destruct (f x) as [y|e] eqn:Ex.
    + destruct (traverse f xs) as [zs|e] eqn:Et.
      * split; intros E.
        -- injection E as <-. constructor; [assumption|]. now apply IH.
        -- inversion E as [|? y' ? zs' Hy Hzs]; subst.
           apply IH in Hzs. congruence.
      * split; intros E; [discriminate|].
        inversion E as [|? y' ? zs' Hy Hzs]; subst.
        apply IH in Hzs. discriminate.
    + split; intros E; [discriminate|].
      inversion E; subst. congruence.
Qed.

Lemma Forall2_map_l {A B C} (g : A -> B) (P : B -> C -> Prop) xs ys :
  Forall2 P (map g xs) ys <-> Forall2 (fun x y => P (g x) y) xs ys.
Proof.
  revert ys; induction xs as [|x xs IH]; intros ys; simpl.
  - split; intros E; inversion E; constructor.
  - split; intros E; inversion E; subst; constructor; try assumption;
      now apply IH.
Qed.

Lemma Forall2_fun_map {A B} (g : A -> result B) (h : A -> B) xs :
  (forall x, In x xs -> g x = Ok (h x)) ->
  Forall2 (fun x y => g x = Ok y) xs (map h xs).
Proof.
  induction xs as [|x xs IH]; intros Hx; simpl; constructor.
  - apply Hx. now left.
  - apply IH. intros y Hy. apply Hx. now right.
Qed.

Lemma Forall2_functional {A B} (g : A -> result B) xs ys zs :
  Forall2 (fun x y => g x = Ok y) xs ys ->
  Forall2 (fun x y => g x = Ok y) xs zs -> ys = zs.
Proof.
  intros H; revert zs; induction H as [|x y xs ys Hxy _ IH]; intros zs Hz;
    inversion Hz; subst; [reflexivity|].
  f_equal; [congruence | now apply IH].
Qed.

Lemma chunks_length {A} k n (xs : list A) : length (chunks k n xs) = n.
Proof. revert xs; induction n; intros xs; simpl; [reflexivity | now rewrite IHn]. Qed.

Lemma chunks_concat {A} k n (xs : list A) :
  length xs = n * k -> concat (chunks k n xs) = xs.
Proof.
  revert xs; induction n as [|n IH]; intros xs Hlen; simpl in *.
  - now destruct xs.
  - rewrite IH.
    + apply firstn_skipn.
    + rewrite length_skipn. lia.
Qed.

Lemma chunks_Forall_length {A} k n (xs : list A) :
  length xs = n * k -> Forall (fun b => length b = k) (chunks k n xs).
Proof.
  revert xs; induction n as [|n IH]; intros xs Hlen; simpl in *; constructor.
  - rewrite length_firstn. lia.
  - apply IH. rewrite length_skipn. lia.
Qed.

Lemma split_ok {A} n (xs : list A) :
  n <> 0 -> length xs mod n = 0 ->
  split n xs = Ok (chunks (length xs / n) n xs) /\
  concat (chunks (length xs / n) n xs) = xs.
Proof.
  intros Hn Hmod. unfold split. destruct n as [|n']; [contradiction|].
  rewrite Hmod. simpl Nat.eqb. cbv iota. split; [reflexivity|].
  apply chunks_concat.
  pose proof (Nat.div_mod_eq (length xs) (S n')) as E.
  rewrite Hmod in E. lia.
Qed.

Lemma split_raises {A} n (xs : list A) :
  (n = 0 \/ length xs mod n <> 0) -> split n xs = Raise InvalidArgument.
Proof.
  unfold split. intros [->|Hmod]; [reflexivity|].
  destruct n as [|n']; [reflexivity|].
  destruct (Nat.eqb_spec (length xs mod S n') 0); [contradiction|reflexivity].
Qed.

Lemma traverse_map {A B C} (h : A -> B) (f : B -> result C) xs :
  traverse f (map h xs) = traverse (fun x => f (h x)) xs.
Proof.
  induction xs as [|x xs IH]; simpl; [reflexivity|]. now rewrite IH.
Qed.

Lemma traverse_bind_Forall2 {A B C} (f : A -> result B) (g : B -> result C)
    xs zs :
  rbind (traverse f xs) (traverse g) = Ok zs <->
  Forall2 (fun x z => rbind (f x) g = Ok z) xs zs.
Proof.
  revert zs; induction xs as [|x xs IH]; intros zs; simpl.
  - split; intros E.
    + injection E as <-. constructor.
    + inversion E. reflexivity.
  - destruct (f x) as [y|e] eqn:Ex; simpl.
    + destruct (traverse f xs) as [ys|e] eqn:Et; simpl in *.
      * destruct (g y) as [z|e] eqn:Ey.
        -- destruct (traverse g ys) as [zs'|e] eqn:Eg.
           ++ split; intros E.
              ** injection E as <-. constructor.
                 --- now rewrite Ex.
                 --- now apply IH.
              ** inversion E as [|? z' ? zs'' Hz Hzs]; subst.
                 apply IH in Hzs. rewrite Ex in Hz. simpl in Hz. congruence.
           ++ split; intros E; [discriminate|].
              inversion E as [|? z' ? zs'' Hz Hzs]; subst.
              apply IH in Hzs. discriminate.
        -- split; intros E; [discriminate|].
           inversion E as [|? z' ? zs'' Hz Hzs]; subst.
           rewrite Ex in Hz. simpl in Hz. congruence.
      * split; intros E; [discriminate|].
        inversion E as [|? z' ? zs'' Hz Hzs]; subst.
        apply IH in Hzs. discriminate.
    + split; intros E; [discriminate|].
      inversion E as [|? z' ? zs'' Hz Hzs]; subst.
      rewrite Ex in Hz. discriminate.
Qed.
(* ================================================================== *)
(** ** Comparisons of the two arithmetics *)

(** In binary32 two numbers are comparable exactly when neither is NaN. *)
Lemma float32_comparable_iff (a b : Float32.t) :
  Float32.gtb a b = true \/ Float32.leb a b = true <->
  Float32.is_nan a = false /\ Float32.is_nan b = false.
Proof.
  unfold Float32.gtb, Float32.leb, Float32.is_nan, SFltb, SFleb.
  split.
  - intros H. destruct a, b; cbn in *; auto; destruct H; discriminate.
  - intros [Ha Hb].
    destruct a as [sa|sa| |sa ma ea]; try discriminate;
      destruct b as [sb|sb| |sb mb eb]; try discriminate;
      cbn; try (destruct sa); try (destruct sb); auto.
    all: rewrite (Z.compare_antisym ea eb);
      destruct (ea ?= eb)%Z; cbn; auto;
      change (Pos.compare_cont Eq mb ma) with (mb ?= ma)%positive;
      change (Pos.compare_cont Eq ma mb) with (ma ?= mb)%positive;
      rewrite (Pos.compare_antisym ma mb);
      destruct (ma ?= mb)%positive; cbn; auto.
Qed.

Lemma comparable_float32_iff (row : list Float32.t) :
  comparable row <->
  forallb (fun x => negb (Float32.is_nan x)) row = true.
Proof.
  rewrite forallb_forall. split.
  - intros H x Hx.
    destruct (proj1 (float32_comparable_iff x x) (H x x Hx Hx)) as [-> _].
    reflexivity.
  - intros H a b Ha Hb. apply float32_comparable_iff.
    apply H in Ha, Hb. now destruct (Float32.is_nan a), (Float32.is_nan b).
Qed.

(** In exact arithmetic any two numbers are comparable. *)
Lemma comparable_R (row : list R) : comparable row.
Proof.
  intros a b _ _. cbn [fgtb fleb Scalar_R]. unfold Rgtb, Rleb.
  destruct (Rlt_dec b a), (Rle_dec a b); auto. lra.
Qed.


(* ================================================================== *)
(** ** Facts about [Trainer.eval] *)

Section EvalFacts.
Context {F : Type} {SF : Scalar F}.
Variable Img : Type.
Variable features : Img -> Lab -> list F.
Variable argsort : list F -> list nat.
Variable matmul_entry : list F -> list F -> F.

Lemma embed_loop_spec pbs idx batches af al :
  pbs <> 0 ->
  embed_loop features pbs idx batches af al =
  Ok (match batches with
      | [] => (af, al)
      | _ :: _ => (Some (cat af (all_rows features batches)),
                   Some (cat al (all_labels batches)))
      end).
Proof.
  intros Hp. destruct pbs as [|p]; [contradiction|]. clear Hp.
  revert idx af al.
  induction batches as [|batch rest IH]; intros idx af al; [reflexivity|].
  cbn [embed_loop pymod rbind]. rewrite IH.
  unfold all_rows, all_labels.
  destruct rest as [|b' rest]; cbn [map concat cat].
  - now rewrite !app_nil_r.
  - destruct af, al; cbn [cat]; now rewrite ?app_assoc.
Qed.

Lemma embed_loop_cons pbs batch rest :
  pbs <> 0 ->
  embed_loop features pbs 0 (batch :: rest) None None =
  Ok (Some (all_rows features (batch :: rest)),
      Some (all_labels (batch :: rest))).
Proof. intros Hp. now rewrite embed_loop_spec. Qed.

Lemma embed_loop_zero_step idx batch rest af al :
  embed_loop features 0 idx (batch :: rest) af al = Raise ZeroDivisionError.
Proof. reflexivity. Qed.

Lemma all_rows_flat loader :
  all_rows features loader =
  map (fun s => normalize (features (fst s) (snd s))) (concat loader).
Proof.
  unfold all_rows, batch_feas. now rewrite concat_map.
Qed.

Lemma all_labels_flat (loader : list (Batch Img)) :
  all_labels loader = map snd (concat loader).
Proof.
  unfold all_labels, batch_labels. now rewrite concat_map.
Qed.

Lemma all_rows_labels_length loader :
  length (all_rows features loader) = length (all_labels loader).
Proof. now rewrite all_rows_flat, all_labels_flat, !length_map. Qed.

(** The block computation, row by row. *)
Lemma nearest_labels_Forall2 all_feas all_labs block labs :
  nearest_labels argsort matmul_entry all_feas all_labs block = Ok labs <->
  all_feas <> [] /\
  Forall2 (fun q l => nearest_label argsort matmul_entry all_feas all_labs q = Ok l) block labs.
Proof.
  unfold nearest_labels, nearest_label, similarities, gather, first_column.
  destruct all_feas as [|g G'].
  - split; [discriminate|]. intros [Hne _]. now contradiction Hne.
  - cbn [length]. rewrite !traverse_map, traverse_bind_Forall2.
    split.
    + intros H. split; [discriminate|].
      eapply Forall2_impl; [|exact H]. cbv beta. intros q l.
      destruct (argsort (map (matmul_entry q) (g :: G'))); simpl; [discriminate|].
      trivial.
    + intros [_ H].
      eapply Forall2_impl; [|exact H]. cbv beta. intros q l.
      destruct (argsort (map (matmul_entry q) (g :: G'))); simpl; [discriminate|].
      trivial.
Qed.

Lemma choose_loop_spec all_feas all_labs blocks acc r :
  choose_loop argsort matmul_entry all_feas all_labs blocks acc = Ok r <->
  (blocks = [] /\ r = acc) \/
  (blocks <> [] /\
   exists labs, nearest_labels argsort matmul_entry all_feas all_labs (concat blocks) = Ok labs /\
                r = Some (cat acc labs)).
Proof.
  revert acc r. induction blocks as [|b rest IH]; intros acc r.
  - simpl. split.
    + intros E. injection E as <-. now left.
    + intros [[_ ->]|[Hne _]]; [reflexivity | now contradiction Hne].
  - cbn [choose_loop concat].
    destruct (nearest_labels argsort matmul_entry all_feas all_labs b) as [tmp|e] eqn:Eb;
      cbn [rbind].
    + apply nearest_labels_Forall2 in Eb as [Hne Hb].
      rewrite IH. split.
      * intros [[-> ->]|[Hrest [labs [Hl ->]]]]; right;
          (split; [discriminate|]).
        -- exists tmp. split; [|reflexivity].
           apply nearest_labels_Forall2. split; [assumption|].
           cbn [concat]. now rewrite app_nil_r.
        -- exists (tmp ++ labs). split.
           ++ apply nearest_labels_Forall2 in Hl as [_ Hl].
              apply nearest_labels_Forall2. split; [assumption|].
              now apply Forall2_app.
           ++ destruct acc; cbn [cat]; now rewrite ?app_assoc.
      * intros [[Hd _]|[_ [labs [Hl ->]]]]; [discriminate|].
        apply nearest_labels_Forall2 in Hl as [_ Hl].
        apply Forall2_app_inv_l in Hl as (l1 & l2 & H1 & H2 & ->).
        assert (l1 = tmp) as -> by (eapply Forall2_functional; eassumption).
        destruct rest as [|b' rest'].
        -- left. split; [reflexivity|]. cbn [concat] in H2. inversion H2.
           now rewrite app_nil_r.
        -- right. split; [discriminate|]. exists l2. split.
           ++ apply nearest_labels_Forall2. now split.
           ++ destruct acc; cbn [cat]; now rewrite ?app_assoc.
    + split; [discriminate|].
      intros [[Hd _]|[_ [labs [Hl _]]]]; [discriminate|].
      apply nearest_labels_Forall2 in Hl as [Hne Hl].
      apply Forall2_app_inv_l in Hl as (l1 & l2 & H1 & _ & _).
      assert (E : nearest_labels argsort matmul_entry all_feas all_labs b = Ok l1)
        by (apply nearest_labels_Forall2; now split).
      congruence.
Qed.
Lemma head_of_descending (row : list F) idx :
  descending_argsort row idx -> row <> [] ->
  exists h t, idx = h :: t /\ h < length row /\
    forall j, j < length row -> j <> h ->
              fgtb (nth j row f0) (nth h row f0) = false.
Proof.
  intros [Hperm Hsorted] Hrow.
  destruct idx as [|h t].
  - apply Permutation_length in Hperm. rewrite length_seq in Hperm.
    destruct row; [contradiction | discriminate].
  - exists h, t. split; [reflexivity|]. split.
    + assert (Hin : In h (seq 0 (length row)))
        by (eapply Permutation_in; [exact Hperm | now left]).
      apply in_seq in Hin. lia.
    + intros j Hj Hne.
      assert (Hin : In j (h :: t)).
      { eapply Permutation_in; [apply Permutation_sym; exact Hperm|].
        apply in_seq. lia. }
      destruct Hin as [->|Hin]; [contradiction|].
      apply StronglySorted_inv in Hsorted as [_ Hall].
      rewrite Forall_forall in Hall. now apply Hall.
Qed.

Lemma nth_similarity_row (q : list F) all_feas j :
  j < length all_feas ->
  nth j (map (matmul_entry q) all_feas) f0
    = matmul_entry q (nth j all_feas []).
Proof.
  intros Hj.
  rewrite (nth_indep _ f0 (matmul_entry q [])) by now rewrite length_map.
  apply map_nth.
Qed.

Lemma nth_similarity_row_In (q : list F) all_feas j :
  j < length all_feas ->
  In (matmul_entry q (nth j all_feas [])) (map (matmul_entry q) all_feas).
Proof. intros Hj. apply in_map. now apply nth_In. Qed.

Lemma combine_map_l {A B C} (h : A -> B) (xs : list A) (ys : list C) :
  combine (map h xs) ys = map (fun p => (h (fst p), snd p)) (combine xs ys).
Proof.
  revert ys; induction xs as [|x xs IH]; intros [|y ys]; simpl;
    [reflexivity..|]. now rewrite IH.
Qed.

(** The block loop on the pieces of an even split computes what one
    pass over the whole matrix computes. *)
Lemma choose_loop_on_split all_feas all_labs (query_feas : list (list F))
    num_split :
  num_split <> 0 ->
  length query_feas mod num_split = 0 ->
  forall r,
    choose_loop argsort matmul_entry all_feas all_labs
      (chunks (length query_feas / num_split) num_split query_feas) None
      = Ok r <->
    exists labs,
      nearest_labels argsort matmul_entry all_feas all_labs query_feas = Ok labs /\
      r = Some labs.
Proof.
  intros Hn Hmod r.
  destruct (split_ok query_feas Hn Hmod) as [_ Hconcat].
  rewrite choose_loop_spec, Hconcat. cbn [cat]. split.
  - intros [[E _]|[_ H]]; [|exact H].
    apply (f_equal (@length _)) in E. rewrite chunks_length in E.
    now contradiction Hn.
  - intros H. right. split; [|exact H].
    intros E. apply (f_equal (@length _)) in E.
    rewrite chunks_length in E. now contradiction Hn.
Qed.

(** C9: splitting the query matrix into [num_split] equal blocks,
    choosing the nearest gallery label block by block and concatenating
    gives exactly the label column computed on the unsplit matrix, and
    entry [i] of that column is the label chosen for query row [i]. *)
Theorem split_blocks_index_aligned
    (all_feas : list (list F)) (all_labs : list Lab)
    (query_feas : list (list F)) (num_split : nat) :
  num_split <> 0 ->
  length query_feas mod num_split = 0 ->
  exists fea_blocks,
    split num_split query_feas = Ok fea_blocks /\
    length fea_blocks = num_split /\
    Forall (fun b => length b = length query_feas / num_split) fea_blocks /\
    concat fea_blocks = query_feas /\
    is_ok (choose_loop argsort matmul_entry all_feas all_labs fea_blocks None) =
      is_ok (nearest_labels argsort matmul_entry all_feas all_labs query_feas) /\
    forall choosen_label,
      (choose_loop argsort matmul_entry all_feas all_labs fea_blocks None
         = Ok (Some choosen_label) <->
       nearest_labels argsort matmul_entry all_feas all_labs query_feas
         = Ok choosen_label) /\
      (nearest_labels argsort matmul_entry all_feas all_labs query_feas
         = Ok choosen_label ->
       length choosen_label = length query_feas /\
       forall i q, nth_error query_feas i = Some q ->
         exists l, nth_error choosen_label i = Some l /\
                   nearest_label argsort matmul_entry all_feas all_labs q = Ok l).
Proof.
  intros Hn Hmod.
  destruct (split_ok query_feas Hn Hmod) as [Hsplit Hconcat].
  set (k := length query_feas / num_split) in *.
  exists (chunks k num_split query_feas).
  assert (Hlen : length query_feas = num_split * k).
  { pose proof (Nat.div_mod_eq (length query_feas) num_split) as E.
    subst k. lia. }
  pose proof (choose_loop_on_split all_feas all_labs query_feas Hn Hmod)
    as Hiff.
  fold k in Hiff.
  split; [exact Hsplit|]. split; [apply chunks_length|].
  split; [now apply chunks_Forall_length|].
  split; [exact Hconcat|]. split.
  - destruct (nearest_labels argsort matmul_entry all_feas all_labs query_feas)
      as [labs|e] eqn:En.
    + rewrite (proj2 (Hiff (Some labs))); [reflexivity|].
      now exists labs.
    + destruct (choose_loop argsort matmul_entry all_feas all_labs
                  (chunks k num_split query_feas) None) as [r|e'] eqn:Ec;
        [|reflexivity].
      destruct (proj1 (Hiff r) eq_refl) as [labs [Hl _]]. discriminate.
  - intros choosen_label. split.
    + rewrite Hiff. split.
      * intros [labs [Hl E]]. now injection E as <-.
      * intros Hl. now exists choosen_label.
    + intros Hl. apply nearest_labels_Forall2 in Hl as [_ Hall]. split.
      * symmetry. eapply Forall2_length; exact Hall.
      * clear - Hall. induction Hall as [|q l qs ls Hql _ IH];
          intros i q' Hnth.
        -- destruct i; discriminate.
        -- destruct i as [|i]; simpl in *.
           ++ injection Hnth as <-. now exists l.
           ++ now apply IH.
Qed.

(** C1: when the gallery and the query set are non-empty,
    [print_batch_step] is not zero, [num_split] is positive and divides
    the number of query rows, no similarity is NaN (any two similarities
    of a query are comparable) and the framework's [argsort] sorts each
    similarity row in descending order, [Trainer.eval] returns the mean
    of the indicators "the label of the gallery row at the head of the
    sorted similarity row equals the query's label".  Gallery and query
    rows are the model's features divided by their L2 norm, a
    similarity is the entry of the framework's matrix product for two
    such rows, the sorted row is not empty, and the chosen gallery row
    has the highest similarity: every other gallery row's similarity is
    less than or equal to it, and none is greater. *)
Theorem eval_returns_recall_at_1
    (print_batch_step num_split : nat)
    (gallery_dataloader query_dataloader : list (Batch Img)) :
  let all_feas := all_rows features gallery_dataloader in
  let all_labs := all_labels gallery_dataloader in
  let query_feas := all_rows features query_dataloader in
  let query_labs := all_labels query_dataloader in
  all_feas <> [] ->
  query_feas <> [] ->
  print_batch_step <> 0 ->
  num_split <> 0 ->
  length query_feas mod num_split = 0 ->
  (forall q, In q query_feas ->
     comparable (map (matmul_entry q) all_feas)) ->
  (forall q, In q query_feas ->
     descending_argsort (map (matmul_entry q) all_feas)
                        (argsort (map (matmul_entry q) all_feas))) ->
  eval features argsort matmul_entry print_batch_step num_split
       gallery_dataloader query_dataloader
    = Ok (recall_at_1 argsort matmul_entry all_feas all_labs
                      query_feas query_labs) /\
  all_feas = map (fun s => normalize (features (fst s) (snd s)))
                 (concat gallery_dataloader) /\
  query_feas = map (fun s => normalize (features (fst s) (snd s)))
                   (concat query_dataloader) /\
  forall q, In q query_feas ->
    let nearest := nearest_index argsort matmul_entry all_feas q in
    (exists rest,
        argsort (map (matmul_entry q) all_feas) = nearest :: rest) /\
    nearest < length all_feas /\
    forall j, j < length all_feas -> j <> nearest ->
              fleb (matmul_entry q (nth j all_feas []))
                   (matmul_entry q (nth nearest all_feas [])) = true /\
              fgtb (matmul_entry q (nth j all_feas []))
                   (matmul_entry q (nth nearest all_feas [])) = false.
Proof.
  intros all_feas all_labs query_feas query_labs
         Hg Hq Hpbs Hns Hmod Hcmp Hsort.
  assert (Hhead : forall q, In q query_feas ->
    exists t, argsort (map (matmul_entry q) all_feas)
              = nearest_index argsort matmul_entry all_feas q :: t /\
      nearest_index argsort matmul_entry all_feas q < length all_feas /\
      forall j, j < length all_feas ->
                j <> nearest_index argsort matmul_entry all_feas q ->
                fgtb (matmul_entry q (nth j all_feas []))
                     (matmul_entry q
                        (nth (nearest_index argsort matmul_entry all_feas q)
                             all_feas [])) = false).
  { intros q Hin.
    destruct (@head_of_descending (map (matmul_entry q) all_feas) _
                (Hsort q Hin))
      as (h & t & Ei & Hlt & Hmax).
    - destruct all_feas; [contradiction | discriminate].
    - rewrite length_map in Hlt, Hmax.
      unfold nearest_index. rewrite Ei. cbn [hd].
      exists t. split; [reflexivity|]. split; [exact Hlt|].
      intros j Hj Hne. rewrite <- !nth_similarity_row by assumption.
      now apply Hmax. }
  split; [|split; [apply all_rows_flat | split; [apply all_rows_flat|]]].
  - unfold eval.
    destruct gallery_dataloader as [|gb grest]; [now contradiction Hg|].
    destruct query_dataloader as [|qb qrest]; [now contradiction Hq|].
    rewrite !embed_loop_cons by assumption. cbn [rbind deref fst snd].
    fold all_feas all_labs query_feas query_labs.
    destruct (split_ok query_feas Hns Hmod) as [Hsplit _].
    rewrite Hsplit. cbn [rbind].
    set (labs := map (fun q => nth (nearest_index argsort matmul_entry
                                      all_feas q)
                                   all_labs 0%Z) query_feas).
    rewrite (proj2 (choose_loop_on_split all_feas all_labs query_feas
                      Hns Hmod (Some labs)));
      [|exists labs; split; [|reflexivity]].
    + cbn [rbind deref]. f_equal. unfold recall_at_1, equal_cast, labs.
      rewrite combine_map_l, map_map. reflexivity.
    + apply nearest_labels_Forall2. split; [exact Hg|].
      apply Forall2_fun_map. intros q Hin.
      destruct (Hhead q Hin) as (t & Ei & Hlt & _).
      unfold nearest_label. destruct all_feas as [|g0 G0] eqn:Eg;
        [contradiction|].
      rewrite Ei.
      assert (Hl : nearest_index argsort matmul_entry (g0 :: G0) q
                   < length all_labs).
      { unfold all_labs. rewrite <- all_rows_labels_length.
        fold all_feas. now rewrite Eg. }
      destruct (nth_error all_labs
                  (nearest_index argsort matmul_entry (g0 :: G0) q))
        as [l|] eqn:En.
      * f_equal. symmetry. now apply nth_error_nth.
      * apply nth_error_None in En. lia.
  - intros q Hin. cbv zeta.
    destruct (Hhead q Hin) as (t & Ei & Hlt & Hmax).
    split; [now exists t|]. split; [exact Hlt|].
    intros j Hj Hne.
    pose proof (Hmax j Hj Hne) as Hgt. split; [|exact Hgt].
    destruct (Hcmp q Hin _ _ (nth_similarity_row_In q all_feas Hj)
                (nth_similarity_row_In q all_feas Hlt)) as [Hc|Hc].
    + rewrite Hc in Hgt. discriminate.
    + exact Hc.
Qed.
(** *** Error and edge behaviour of [Trainer.eval] *)

(** X1: an empty gallery dataloader leaves [all_feas] at [None] and the
    log line of line 268 raises AttributeError, whatever the other
    arguments are; once the gallery is built, an empty query dataloader
    does the same at line 299. *)
Theorem eval_empty_loader_raises :
  (forall pbs num_split (query : list (Batch Img)),
      eval features argsort matmul_entry pbs num_split [] query = Raise AttributeError) /\
  (forall pbs num_split (gallery : list (Batch Img)),
      pbs <> 0 -> gallery <> [] ->
      eval features argsort matmul_entry pbs num_split gallery [] = Raise AttributeError).
Proof.
  split.
  - reflexivity.
  - intros pbs num_split gallery Hp Hg.
    destruct gallery as [|gb grest]; [contradiction|].
    unfold eval. rewrite embed_loop_cons by assumption. reflexivity.
Qed.

(** X2: with [print_batch_step = 0] the progress check of the first
    gallery batch (line 264) raises ZeroDivisionError, before any
    similarity is computed. *)
Theorem eval_zero_print_step_raises
    (num_split : nat) (gallery query : list (Batch Img)) :
  gallery <> [] ->
  eval features argsort matmul_entry 0 num_split gallery query = Raise ZeroDivisionError.
Proof.
  intros Hg. destruct gallery as [|gb grest]; [contradiction|]. reflexivity.
Qed.

(** X3: with both sets built, a [num_split] that is zero or does not
    divide the number of query rows makes [paddle.split] raise; [eval]
    returns no recall. *)
Theorem eval_indivisible_split_raises
    (pbs num_split : nat) (gallery query : list (Batch Img)) :
  pbs <> 0 -> gallery <> [] -> query <> [] ->
  num_split = 0 \/ length (all_rows features query) mod num_split <> 0 ->
  eval features argsort matmul_entry pbs num_split gallery query = Raise InvalidArgument.
Proof.
  intros Hp Hg Hq Hn.
  destruct gallery as [|gb grest]; [contradiction|].
  destruct query as [|qb qrest]; [contradiction|].
  unfold eval. rewrite !embed_loop_cons by assumption.
  cbn [rbind deref fst snd]. now rewrite split_raises.
Qed.

Lemma eval_ok_iff pbs num_split (gallery query : list (Batch Img)) x :
  pbs <> 0 -> gallery <> [] -> query <> [] ->
  num_split <> 0 -> length (all_rows features query) mod num_split = 0 ->
  eval features argsort matmul_entry pbs num_split gallery query = Ok x <->
  exists labs,
    nearest_labels argsort matmul_entry (all_rows features gallery) (all_labels gallery)
                   (all_rows features query) = Ok labs /\
    x = mean (equal_cast labs (all_labels query)).
Proof.
  intros Hp Hg Hq Hn Hmod.
  destruct gallery as [|gb grest]; [contradiction|].
  destruct query as [|qb qrest]; [contradiction|].
  unfold eval. rewrite !embed_loop_cons by assumption.
  cbn [rbind deref fst snd].
  destruct (split_ok (all_rows features (qb :: qrest)) Hn Hmod) as [-> _].
  cbn [rbind].
  pose proof (choose_loop_on_split (all_rows features (gb :: grest))
                (all_labels (gb :: grest))
                (all_rows features (qb :: qrest)) Hn Hmod) as Hiff.
  destruct (choose_loop argsort matmul_entry _ _ _ None) as [r|e].
  - destruct (proj1 (Hiff r) eq_refl) as (labs & Hl & ->).
    cbn [rbind deref]. split.
    + intros E. injection E as <-. now exists labs.
    + intros (labs' & Hl' & ->). rewrite Hl in Hl'.
      injection Hl' as <-. reflexivity.
  - cbn [rbind]. split; [discriminate|].
    intros (labs & Hl & _).
    assert (E : Raise e = Ok (Some labs))
      by (apply (Hiff (Some labs)); now exists labs).
    discriminate.
Qed.

(** X4: the recall does not depend on [num_split]: any two positive
    block counts that divide the number of query rows give the same
    result, and [eval] returns for the one exactly when it returns for
    the other. *)
Theorem eval_independent_of_num_split
    (pbs n1 n2 : nat) (gallery query : list (Batch Img)) :
  n1 <> 0 -> length (all_rows features query) mod n1 = 0 ->
  n2 <> 0 -> length (all_rows features query) mod n2 = 0 ->
  forall x,
    eval features argsort matmul_entry pbs n1 gallery query = Ok x <->
    eval features argsort matmul_entry pbs n2 gallery query = Ok x.
Proof.
  intros H1 M1 H2 M2 x.
  destruct gallery as [|gb grest]; [reflexivity|].
  destruct pbs as [|p]; [reflexivity|].
  destruct query as [|qb qrest].
  - unfold eval. rewrite !embed_loop_cons by discriminate. reflexivity.
  - rewrite !eval_ok_iff by (assumption || discriminate). reflexivity.
Qed.
(** Whenever [eval] returns, it returns the mean of the indicators of
    some label column as long as the query matrix. *)
Lemma eval_ok_inv pbs num_split (gallery query : list (Batch Img)) x :
  eval features argsort matmul_entry pbs num_split gallery query = Ok x ->
  exists labs,
    length labs = length (all_rows features query) /\
    x = mean (equal_cast labs (all_labels query)).
Proof.
  intros E.
  destruct gallery as [|gb grest]; [discriminate E|].
  destruct pbs as [|p]; [discriminate E|].
  destruct query as [|qb qrest].
  { unfold eval in E. rewrite !embed_loop_cons in E by discriminate.
    discriminate E. }
  destruct (Nat.eq_dec num_split 0) as [Hn|Hn].
  { unfold eval in E. rewrite !embed_loop_cons in E by discriminate.
    cbn [rbind deref fst snd] in E.
    rewrite split_raises in E by now left. discriminate E. }
  destruct (Nat.eq_dec (length (all_rows features (qb :: qrest)) mod num_split) 0)
    as [Hm|Hm].
  - apply eval_ok_iff in E; try assumption; try discriminate.
    destruct E as (labs & Hl & ->). exists labs. split; [|reflexivity].
    apply nearest_labels_Forall2 in Hl as [_ Hall].
    symmetry. eapply Forall2_length; exact Hall.
  - unfold eval in E. rewrite !embed_loop_cons in E by discriminate.
    cbn [rbind deref fst snd] in E.
    rewrite split_raises in E by now right. discriminate E.
Qed.
End EvalFacts.

(* ================================================================== *)
(** ** Normalisation and the recall in exact arithmetic *)

Section RealNorm.
Open Scope R_scope.

Lemma fold_left_Rplus_acc (xs : list R) (a : R) :
  fold_left Rplus xs a = a + fold_left Rplus xs 0.
Proof.
  revert a; induction xs as [|x xs IH]; intros a; simpl.
  - lra.
  - rewrite (IH (a + x)), (IH (0 + x)). lra.
Qed.

Lemma fsum_R_nil : fsum (F := R) [] = 0.
Proof. reflexivity. Qed.

Lemma fsum_R_cons (x : R) xs : fsum (x :: xs) = x + fsum xs.
Proof.
  unfold fsum. cbn [fold_left fadd f0 Scalar_R].
  rewrite fold_left_Rplus_acc. lra.
Qed.

Lemma fsum_R_scale (f : R -> R) (c : R) xs :
  fsum (map (fun x => f x * c) xs) = fsum (map f xs) * c.
Proof.
  induction xs as [|x xs IH]; cbn [map].
  - rewrite fsum_R_nil. lra.
  - rewrite !fsum_R_cons, IH. lra.
Qed.

Lemma sum_squares_nonneg (row : list R) :
  0 <= fsum (map (fun x => fmul x x) row).
Proof.
  induction row as [|x row IH]; cbn [map].
  - rewrite fsum_R_nil. lra.
  - rewrite fsum_R_cons. cbn [fmul Scalar_R] in *.
    pose proof (Rle_0_sqr x) as Hx. unfold Rsqr in Hx. lra.
Qed.

Lemma sum_squares_pos (row : list R) :
  (exists x, In x row /\ x <> 0) ->
  0 < fsum (map (fun x => fmul x x) row).
Proof.
  intros (x & Hin & Hx).
  induction row as [|y row IH]; [contradiction|].
  cbn [map]. rewrite fsum_R_cons.
  pose proof (sum_squares_nonneg row) as Hrest. cbn [fmul Scalar_R] in *.
  pose proof (Rle_0_sqr y) as Hy. unfold Rsqr in Hy.
  destruct Hin as [->|Hin].
  - assert (0 < x * x) by (apply Rsqr_pos_lt in Hx; exact Hx). lra.
  - specialize (IH Hin). lra.
Qed.

Lemma fsum_R_indicators {A} (p : A -> bool) (xs : list A) :
  fsum (map (fun x => if p x then f1 else f0) xs) = INR (length (filter p xs)).
Proof.
  induction xs as [|x xs IH]; cbn [map filter].
  - rewrite fsum_R_nil. reflexivity.
  - rewrite fsum_R_cons, IH. destruct (p x); cbn [f1 f0 Scalar_R length].
    + rewrite S_INR. lra.
    + lra.
Qed.

(** In exact arithmetic the mean of the indicators is the fraction of
    queries whose nearest gallery row carries their label. *)
Lemma recall_at_1_is_fraction (argsort : list R -> list nat)
    (matmul_entry : list R -> list R -> R)
    (all_feas : list (list R)) (all_labs : list Lab)
    (query_feas : list (list R)) (query_labs : list Lab) :
  let hit := fun p : list R * Lab =>
               Z.eqb (nth (nearest_index argsort matmul_entry all_feas (fst p)) all_labs 0%Z)
                     (snd p) in
  recall_at_1 argsort matmul_entry all_feas all_labs query_feas query_labs =
  INR (length (filter hit (combine query_feas query_labs))) /
  INR (length (combine query_feas query_labs)).
Proof.
  cbn zeta. unfold recall_at_1, mean. rewrite length_map.
  cbn [fdiv f_of_nat Scalar_R]. f_equal.
  apply (fsum_R_indicators
           (fun p : list R * Lab =>
              Z.eqb (nth (nearest_index argsort matmul_entry all_feas (fst p)) all_labs 0%Z)
                    (snd p))).
Qed.
(** X5: in exact arithmetic, whenever [eval] returns on a non-empty
    query set, the recall lies between 0 and 1. *)
Theorem recall_between_0_and_1 (Img : Type)
    (features : Img -> Lab -> list R) (argsort : list R -> list nat)
    (matmul_entry : list R -> list R -> R)
    (pbs num_split : nat) (gallery query : list (Batch Img)) :
  all_rows features query <> [] ->
  match eval features argsort matmul_entry pbs num_split gallery query with
  | Ok recall => 0 <= recall <= 1
  | Raise _ => True
  end.
Proof.
  intros Hq.
  destruct (eval features argsort matmul_entry pbs num_split gallery query)
    as [x|e] eqn:E; [|exact I].
  apply eval_ok_inv in E as (labs & Hlen & ->).
  unfold mean, equal_cast. rewrite length_map.
  rewrite (fsum_R_indicators (fun p : Lab * Lab => Z.eqb (fst p) (snd p))).
  cbn [fdiv f_of_nat Scalar_R].
  set (pairs := combine labs (all_labels query)).
  assert (Hpos : (0 < length pairs)%nat).
  { unfold pairs. rewrite length_combine, Hlen, <- (all_rows_labels_length features query).
    destruct (all_rows features query); [contradiction | cbn; lia]. }
  clearbody pairs.
  assert (Hle : (length (filter (fun p : Lab * Lab => Z.eqb (fst p) (snd p))
                                pairs) <= length pairs)%nat)
    by apply filter_length_le.
  apply lt_INR in Hpos. apply le_INR in Hle. change (INR 0) with 0 in Hpos.
  pose proof (pos_INR (length (filter (fun p : Lab * Lab =>
                                         Z.eqb (fst p) (snd p)) pairs)))
    as H0.
  unfold Rdiv.
  assert (Hinv : 0 < / INR (length pairs)) by now apply Rinv_0_lt_compat.
  assert (Hone : INR (length pairs) * / INR (length pairs) = 1)
    by (apply Rinv_r; lra).
  split.
  - apply Rmult_le_pos; [exact H0 | left; exact Hinv].
  - rewrite <- Hone. apply Rmult_le_compat_r; [left; exact Hinv | exact Hle].
Qed.

Lemma feas_norm_scale (c : R) (row : list R) :
  0 <= c -> feas_norm (map (Rmult c) row) = c * feas_norm row.
Proof.
  intros Hc. unfold feas_norm. rewrite map_map.
  cbn [fsqrt fmul Scalar_R].
  replace (map (fun x => c * x * (c * x)) row)
    with (map (fun x => (fun y => y * y) x * (c * c)) row)
    by (apply map_ext; intros x; ring).
  rewrite fsum_R_scale.
  pose proof (sum_squares_nonneg row) as Hs. cbn [fmul Scalar_R] in Hs.
  rewrite sqrt_mult_alt by exact Hs.
  rewrite (sqrt_square c Hc). ring.
Qed.

(** X6: in exact arithmetic the normalised row does not depend on the
    scale of the features: multiplying a row that is not all-zero by a
    positive factor leaves its normalisation, hence every similarity and
    the recall, unchanged. *)
Theorem normalize_scale_invariant (c : R) (row : list R) :
  0 < c ->
  (exists x, In x row /\ x <> 0) ->
  normalize (map (Rmult c) row) = normalize row.
Proof.
  intros Hc Hnz.
  assert (Hn : 0 < feas_norm row).
  { unfold feas_norm. cbn [fsqrt Scalar_R]. apply sqrt_lt_R0.
    now apply sum_squares_pos. }
  unfold normalize at 1. rewrite feas_norm_scale by lra.
  unfold normalize. rewrite map_map. apply map_ext. intros x.
  cbn [fdiv Scalar_R]. field. split; lra.
Qed.
End RealNorm.

(* ================================================================== *)
(** ** Facts about the meters *)

Section MeterFacts.
Variable F : Type.
Context {SF : Scalar F}.

Lemma first_seen_incl seen ks k :
  In k seen -> In k (first_seen seen ks).
Proof.
  revert seen; induction ks as [|k' ks IH]; intros seen Hin; simpl;
    [assumption|].
  destruct (existsb (String.eqb k') seen); apply IH; [assumption|].
  apply in_or_app. now left.
Qed.

Lemma first_seen_complete seen ks k :
  In k ks -> In k (first_seen seen ks).
Proof.
  revert seen; induction ks as [|k' ks IH]; intros seen Hin; simpl;
    [contradiction|].
  destruct Hin as [->|Hin].
  - destruct (existsb (String.eqb k) seen) eqn:E.
    + apply first_seen_incl. apply existsb_exists in E as (x & Hx & Ex).
      apply String.eqb_eq in Ex. now subst.
    + apply first_seen_incl. apply in_or_app. right. now left.
  - destruct (existsb (String.eqb k') seen); now apply IH.
Qed.

Lemma first_seen_snoc seen ks k :
  first_seen seen (ks ++ [k]) =
  if existsb (String.eqb k) (first_seen seen ks)
  then first_seen seen ks
  else first_seen seen ks ++ [k].
Proof.
  revert seen; induction ks as [|k' ks IH]; intros seen; simpl.
  - now destruct (existsb (String.eqb k) seen).
  - destruct (existsb (String.eqb k') seen); apply IH.
Qed.

Lemma weighted_sum_snoc (vs : list (F * nat)) v n :
  weighted_sum (vs ++ [(v, n)]) = fadd (weighted_sum vs) (fmul v (f_of_nat n)).
Proof. unfold weighted_sum. now rewrite fold_left_app. Qed.

Lemma total_weight_snoc (vs : list (F * nat)) v n :
  total_weight (vs ++ [(v, n)]) = total_weight vs + n.
Proof. unfold total_weight. now rewrite fold_left_app. Qed.

Lemma values_in_snoc key (us : list (string * F * nat)) k v n :
  values_in key (us ++ [(k, v, n)]) =
  values_in key us ++ (if String.eqb k key then [(v, n)] else []).
Proof.
  unfold values_in. rewrite filter_app, map_app. cbn [filter update_key fst].
  now destruct (String.eqb k key).
Qed.

Lemma values_in_unseen key (us : list (string * F * nat)) :
  ~ In key (map (@update_key F) us) -> values_in key us = [].
Proof.
  intros Hnot. unfold values_in.
  induction us as [|u us IH]; [reflexivity|]. cbn [filter].
  destruct (String.eqb_spec (update_key u) key) as [E|E].
  - exfalso. apply Hnot. now left.
  - apply IH. intros Hin. apply Hnot. now right.
Qed.

Lemma dict_alter_keys {V} (f : V -> V) key (d : dict V) :
  map fst (dict_alter f key d) = map fst d.
Proof.
  unfold dict_alter. rewrite map_map. apply map_ext.
  intros kv. now destruct (String.eqb (fst kv) key).
Qed.

Lemma dict_mem_keys {V} key (d : dict V) :
  dict_mem key d = existsb (String.eqb key) (map fst d).
Proof.
  unfold dict_mem. induction d as [|kv d IH]; [reflexivity|]. simpl.
  now rewrite IH, String.eqb_sym.
Qed.

Lemma meters_agree_nil : meters_agree (F := F) [] [].
Proof. split; [reflexivity | constructor]. Qed.

Lemma meter_agrees_fresh_or_old us (m : AverageMeter F) k v n :
  am_sum m = weighted_sum (values_in k us) ->
  am_count m = total_weight (values_in k us) ->
  meter_agrees (us ++ [(k, v, n)]) (k, AverageMeter_update m v n).
Proof.
  intros Hs Hc. unfold meter_agrees. cbn [fst snd].
  rewrite values_in_snoc, String.eqb_refl.
  unfold AverageMeter_update; cbn.
  unfold weighted_average.
  rewrite weighted_sum_snoc, total_weight_snoc, Hs, Hc. auto.
Qed.

Lemma meter_agrees_update us kv k v n :
  meter_agrees us kv ->
  meter_agrees (us ++ [(k, v, n)])
    (if String.eqb (fst kv) k
     then (fst kv, AverageMeter_update (snd kv) v n)
     else kv).
Proof.
  intros (Hs & Hc & Ha).
  destruct (String.eqb_spec (fst kv) k) as [E|E].
  - subst k. now apply meter_agrees_fresh_or_old.
  - unfold meter_agrees. rewrite values_in_snoc.
    destruct (String.eqb_spec k (fst kv)) as [E'|_];
      [now contradiction E|].
    rewrite app_nil_r. auto.
Qed.

Lemma meters_agree_step oi us k v n :
  meters_agree oi us ->
  meters_agree (record_value oi k v n) (us ++ [(k, v, n)]).
Proof.
  intros [Hk Hall]. unfold record_value, meters_agree.
  rewrite dict_alter_keys, (map_app (@update_key F)).
  change (map (@update_key F) [(k, v, n)]) with [k].
  rewrite first_seen_snoc, dict_mem_keys, Hk.
  destruct (existsb (String.eqb k) (first_seen [] (map (@update_key F) us)))
    eqn:Eseen; cbn [negb].
  - split; [exact Hk|].
    unfold dict_alter. apply Forall_map.
    eapply Forall_impl; [|exact Hall]. intros kv Hkv.
    now apply meter_agrees_update.
  - split; [rewrite map_app, Hk; reflexivity|].
    unfold dict_alter. apply Forall_map. apply Forall_app. split.
    + eapply Forall_impl; [|exact Hall]. intros kv Hkv.
      now apply meter_agrees_update.
    + constructor; [|constructor].
      cbn [fst]. rewrite String.eqb_refl.
      apply meter_agrees_fresh_or_old;
        (rewrite values_in_unseen; [reflexivity|]);
        (intros Hin; apply (first_seen_complete []) in Hin;
         assert (Ht : existsb (String.eqb k)
                        (first_seen [] (map (@update_key F) us)) = true)
           by (apply existsb_exists; exists k; split;
               [assumption | apply String.eqb_refl]);
         congruence).
Qed.

Lemma record_dict_updates oi (d : dict F) n :
  record_dict oi d n =
  fold_left (fun oi u => record_value oi (update_key u) (snd (fst u)) (snd u))
            (map (fun kv => (fst kv, snd kv, n)) d) oi.
Proof.
  unfold record_dict. revert oi.
  induction d as [|kv d IH]; intros oi; [reflexivity|]. simpl. apply IH.
Qed.

Lemma record_all_updates oi (h : list (batch_record F)) :
  record_all oi h =
  fold_left (fun oi u => record_value oi (update_key u) (snd (fst u)) (snd u))
            (updates h) oi.
Proof.
  unfold record_all, updates. revert oi.
  induction h as [|r h IH]; intros oi; [reflexivity|].
  cbn [fold_left flat_map]. rewrite fold_left_app, IH.
  now rewrite record_dict_updates.
Qed.

Lemma fold_record_agrees (us : list (string * F * nat)) :
  meters_agree
    (fold_left (fun oi u => record_value oi (update_key u) (snd (fst u)) (snd u))
               us []) us.
Proof.
  induction us as [|u us IH] using rev_ind.
  - apply meters_agree_nil.
  - rewrite fold_left_app. cbn [fold_left].
    destruct u as [[k v] n]. cbn [update_key fst snd].
    now apply meters_agree_step.
Qed.

(** The running meters, read through [avg], are the weighted averages
    of the history. *)
Lemma metric_msg_record_all (h : list (batch_record F)) :
  metric_msg (record_all [] h) = averages h.
Proof.
  rewrite record_all_updates.
  destruct (fold_record_agrees (updates h)) as [Hk Hall].
  unfold averages, keys_of, values_of. rewrite <- Hk.
  unfold metric_msg. rewrite map_map.
  apply map_ext_in. intros kv Hin.
  rewrite Forall_forall in Hall. destruct (Hall kv Hin) as (_ & _ & Ha).
  now rewrite Ha.
Qed.

Lemma record_all_app oi (h1 h2 : list (batch_record F)) :
  record_all oi (h1 ++ h2) = record_all (record_all oi h1) h2.
Proof. unfold record_all. apply fold_left_app. Qed.

Lemma record_dict_app oi (d1 d2 : dict F) n :
  record_dict oi (d1 ++ d2) n = record_dict (record_dict oi d1 n) d2 n.
Proof. unfold record_dict. apply fold_left_app. Qed.
End MeterFacts.

(* ================================================================== *)
(** ** Facts about the trace monad *)

Lemma bind_ok {F A B} (t : list (event F)) (a : A) (k : A -> M F B) :
  bind (t, Ok a) k = (t ++ fst (k a), snd (k a)).
Proof. unfold bind. now destruct (k a). Qed.

Lemma bind_raise {F A B} (t : list (event F)) e (k : A -> M F B) :
  bind (t, Raise e) k = (t, Raise e).
Proof. reflexivity. Qed.

Lemma bind_fst {F A B} (m : M F A) (k : A -> M F B) :
  fst (bind m k) =
  fst m ++ match snd m with Ok a => fst (k a) | Raise _ => [] end.
Proof.
  destruct m as [t [a|e]]; [rewrite bind_ok | rewrite bind_raise]; simpl;
    [reflexivity | now rewrite app_nil_r].
Qed.

Lemma bind_snd {F A B} (m : M F A) (k : A -> M F B) :
  snd (bind m k) =
  match snd m with Ok a => snd (k a) | Raise e => Raise e end.
Proof.
  destruct m as [t [a|e]]; [rewrite bind_ok | rewrite bind_raise];
    reflexivity.
Qed.

Lemma concat_repeat_S {A} (l : list A) k :
  concat (repeat l (S k)) = l ++ concat (repeat l k).
Proof. reflexivity. Qed.

Lemma concat_repeat_add {A} (l : list A) j k :
  concat (repeat l (j + k)) = concat (repeat l j) ++ concat (repeat l k).
Proof. now rewrite repeat_app, concat_app. Qed.

(* ================================================================== *)
(** ** Facts about [Trainer.train] *)

(** Unfolding of the model's definitions, for use where a section
    abbreviates them under the same name. *)
Ltac open_train_batch := unfold train_batch, net_after_batch, batch_values.
Ltac open_net_after_batch := unfold net_after_batch.
Ltac open_eval_and_save_best := unfold eval_and_save_best.
Ltac open_train_epoch := unfold train_epoch.
Ltac open_gated_recall := unfold gated_recall.
Ltac open_epoch_acc := unfold epoch_acc, gated_recall.
Ltac open_train := unfold train.

Section TrainFacts.
Variable F : Type.
Context {SF : Scalar F}.
Variables Img Net Out : Type.
Variable forward : Net -> Batch Img -> Net * Out.
Variable loss_func : Out -> list Lab -> dict F.
Variable metric_func : option (Out -> list Lab -> dict F).
Variable backward : Net -> Out -> Net.
Variables optimizer_step clear_grad lr_step : Net -> Net.
Variable init_model : string -> Net -> Net * option (MetricInfo F).
Variable self_eval : Net -> nat -> result F.
Variable train_dataloader : nat -> list (Batch Img).

Let St := Locals F Net.
Let train_batch :=
  train_batch forward loss_func metric_func backward optimizer_step
              clear_grad lr_step.
Let batch_loop :=
  batch_loop forward loss_func metric_func backward optimizer_step
             clear_grad lr_step.
Let train_epoch :=
  train_epoch forward loss_func metric_func backward optimizer_step
              clear_grad lr_step self_eval train_dataloader.
Let epoch_loop :=
  epoch_loop forward loss_func metric_func backward optimizer_step
             clear_grad lr_step self_eval train_dataloader.
Let train :=
  train forward loss_func metric_func backward optimizer_step
        clear_grad lr_step init_model self_eval train_dataloader.
Let batch_values := batch_values forward loss_func metric_func.
Let net_after_batch :=
  net_after_batch forward backward optimizer_step clear_grad lr_step.
Let batch_history :=
  batch_history forward loss_func metric_func backward optimizer_step
                clear_grad lr_step.
Let eval_and_save_best := eval_and_save_best (Net := Net) self_eval.
Let gated_recall :=
  gated_recall forward loss_func metric_func backward optimizer_step
               clear_grad lr_step self_eval train_dataloader.
Let epoch_acc :=
  epoch_acc forward loss_func metric_func backward optimizer_step
            clear_grad lr_step self_eval train_dataloader.

(** The state a batch leaves behind when it completes. *)
Let after_batch (batch : Batch Img) (st : St) : St :=
  {| net := net_after_batch (net st) batch;
     best_metric := best_metric st;
     output_info := record_dict (output_info st)
                                (fst (batch_values (net st) batch))
                                (snd (batch_values (net st) batch));
     global_step := S (global_step st) |}.

Let batch_log (cfg : Config) (e i : nat) (batch : Batch Img) (st : St)
    : list (event F) :=
  if i mod print_batch_step cfg =? 0
  then [LogIter e i (metric_msg (output_info (after_batch batch st)))]
  else [].

Lemma train_batch_cases cfg e i batch st :
  train_batch cfg e i batch st =
  match print_batch_step cfg with
  | 0 => ([Forward e i], Raise ZeroDivisionError)
  | S _ =>
      match dict_get "loss" (loss_func (snd (forward (net st) batch))
                                       (batch_labels batch)) with
      | Raise err => (Forward e i :: batch_log cfg e i batch st, Raise err)
      | Ok _ => (Forward e i :: batch_log cfg e i batch st ++ update_sequence F,
                 Ok (after_batch batch st))
      end
  end.
Proof.
  unfold train_batch, batch_log, after_batch, net_after_batch, batch_values.
  open_train_batch.
  destruct (forward (net st) batch) as [n1 out] eqn:Ef. cbn [fst snd].
  assert (Eoi :
    match metric_func with
    | Some mf =>
        record_dict
          (record_dict (output_info st) (loss_func out (batch_labels batch))
                       (length batch))
          (mf out (batch_labels batch)) (length batch)
    | None =>
        record_dict (output_info st) (loss_func out (batch_labels batch))
                    (length batch)
    end =
    record_dict (output_info st)
      (loss_func out (batch_labels batch) ++
       match metric_func with
       | Some mf => mf out (batch_labels batch)
       | None => []
       end) (length batch)).
  { destruct metric_func; [now rewrite record_dict_app|].
    now rewrite app_nil_r. }
  rewrite <- Eoi.
  destruct (print_batch_step cfg) as [|p]; [reflexivity|].
  cbn [pymod lift emit bind app fst snd].
  destruct (i mod S p =? 0);
    destruct (dict_get "loss" (loss_func out (batch_labels batch)));
    reflexivity.
Qed.
Lemma batch_history_length n bs : length (batch_history n bs) = length bs.
Proof.
  revert n; induction bs as [|b bs IH]; intros n; simpl;
    [reflexivity | now rewrite IH].
Qed.

Lemma batch_event_ok_shift cfg e i0 oi bv h ev :
  batch_event_ok cfg e (S i0) (record_dict oi (fst bv) (snd bv)) h ev ->
  batch_event_ok cfg e i0 oi (bv :: h) ev.
Proof.
  destruct ev; cbn [batch_event_ok length]; try tauto.
  - intros [-> Hi]. split; [reflexivity | lia].
  - intros (-> & Hi & Hm & ->). split; [reflexivity|]. split; [lia|].
    split; [assumption|].
    replace (S (iter_id - i0)) with (S (S (iter_id - S i0))) by lia.
    reflexivity.
Qed.

Lemma batch_loop_spec cfg e bs : forall i0 st,
  let h := batch_history (net st) bs in
  let tr := fst (batch_loop cfg e i0 bs st) in
  let r := snd (batch_loop cfg e i0 bs st) in
  Forall (batch_event_ok cfg e i0 (output_info st) h) tr /\
  (exists k,
      filter (@is_update_event F) tr = concat (repeat (update_sequence F) k) /\
      k <= length (filter (@is_forward F) tr) <= S k /\
      length (filter (@is_forward F) tr) <= length bs /\
      (is_ok r = true ->
       k = length bs /\ length (filter (@is_forward F) tr) = length bs)) /\
  (forall st', r = Ok st' ->
      net st' = fold_left net_after_batch bs (net st) /\
      best_metric st' = best_metric st /\
      output_info st' = record_all (output_info st) h /\
      global_step st' = global_step st + length bs).
Proof.
  induction bs as [|b bs IH]; intros i0 st; cbn zeta.
  - cbn. split; [constructor|]. split.
    + exists 0. cbn. repeat split; lia.
    + intros st' E. injection E as <-. repeat split. lia.
  - change (batch_loop cfg e i0 (b :: bs) st)
      with (bind (train_batch cfg e i0 b st)
                 (fun st1 => batch_loop cfg e (S i0) bs st1)).
    rewrite train_batch_cases.
    change (batch_history (net st) (b :: bs))
      with (batch_values (net st) b
            :: batch_history (net_after_batch (net st) b) bs).
    set (bv := batch_values (net st) b).
    set (h' := batch_history (net_after_batch (net st) b) bs).
    assert (Hlen : length h' = length bs) by apply batch_history_length.
    assert (Hlog : Forall (batch_event_ok cfg e i0 (output_info st) (bv :: h'))
                          (batch_log cfg e i0 b st)).
    { unfold batch_log.
      destruct (Nat.eqb_spec (i0 mod print_batch_step cfg) 0) as [Hm|_];
        constructor; [|constructor].
      cbn [batch_event_ok length]. repeat split; try lia; try assumption.
      replace (S (i0 - i0)) with 1 by lia. reflexivity. }
    assert (Hfw : batch_event_ok cfg e i0 (output_info st) (bv :: h')
                                 (Forward e i0)).
    { cbn [batch_event_ok length]. split; [reflexivity | lia]. }
    assert (Hlogu : filter (@is_update_event F) (batch_log cfg e i0 b st) = []).
    { unfold batch_log. now destruct (i0 mod print_batch_step cfg =? 0). }
    assert (Hlogf : filter (@is_forward F) (batch_log cfg e i0 b st) = []).
    { unfold batch_log. now destruct (i0 mod print_batch_step cfg =? 0). }
    destruct (print_batch_step cfg) as [|p] eqn:Ep.
    + rewrite bind_raise. cbn [fst snd]. split; [|split].
      * constructor; [exact Hfw | constructor].
      * exists 0. cbn. repeat split; try lia; try discriminate.
      * discriminate.
    + destruct (dict_get "loss"
                  (loss_func (snd (forward (net st) b)) (batch_labels b)))
        as [l|err].
      * rewrite bind_ok. cbn [fst snd]. rewrite <- app_comm_cons, <- app_assoc.
        specialize (IH (S i0) (after_batch b st)).
        cbn zeta in IH. destruct IH as (IHall & (k & Hk & Hkf & Hfl & Hok) & IHst).
        cbn [net output_info after_batch best_metric global_step] in *.
        fold bv in IHall, IHst. fold h' in IHall, IHst.
        split; [|split].
        -- constructor; [exact Hfw|].
           apply Forall_app. split; [exact Hlog|].
           apply Forall_app. split.
           ++ repeat constructor.
           ++ eapply Forall_impl; [|exact IHall].
              intros ev. apply batch_event_ok_shift.
        -- exists (S k). cbn [filter is_update_event is_forward].
           rewrite !filter_app, Hlogu, Hlogf. cbn [app filter length
             update_sequence is_update_event is_forward].
           rewrite Hk. cbn [length].
           split; [reflexivity|]. split; [lia|]. split; [lia|].
           intros Hr. specialize (Hok Hr). lia.
        -- intros st' E. destruct (IHst st' E) as (Hn & Hb & Ho & Hg).
           cbn [fold_left length]. repeat split; try assumption. lia.
      * rewrite bind_raise. cbn [fst snd]. split; [|split].
        -- constructor; [exact Hfw | exact Hlog].
        -- exists 0. cbn [filter is_update_event is_forward].
           rewrite Hlogu, Hlogf. cbn. repeat split; try lia; try discriminate.
        -- discriminate.
Qed.
Lemma periodic_prefix_not_best e :
  String.eqb (periodic_prefix e) best_prefix = false.
Proof. reflexivity. Qed.

Lemma eval_and_save_best_cases cfg e acc (st : St) :
  eval_and_save_best cfg e acc st =
  if eval_gate cfg e
  then match self_eval (net st) e with
       | Raise err => ([EvalCall e], Raise err)
       | Ok a =>
           if fgtb a (metric (best_metric st))
           then ([EvalCall e; SaveModel best_prefix a e],
                 Ok (a, {| net := net st;
                           best_metric := {| metric := a; epoch := e |};
                           output_info := output_info st;
                           global_step := global_step st |}))
           else ([EvalCall e], Ok (a, st))
       end
  else ([], Ok (acc, st)).
Proof.
  unfold eval_and_save_best. open_eval_and_save_best.
  destruct (eval_gate cfg e); [|reflexivity].
  destruct (self_eval (net st) e) as [a|err]; [|reflexivity].
  cbn. now destruct (fgtb a (metric (best_metric st))).
Qed.

(** The trace of one epoch, case by case. *)
Lemma train_epoch_cases cfg e (st : St) :
  train_epoch cfg e st =
  match self_eval (net st) 0 with
  | Raise err => ([EvalCall 0], Raise err)
  | Ok _ =>
      match batch_loop cfg e 0 (train_dataloader e) st with
      | (tb, Raise err) => (EvalCall 0 :: ModelTrain :: tb, Raise err)
      | (tb, Ok st1) =>
          let head := EvalCall 0 :: ModelTrain :: tb
                      ++ [LogAvg e (metric_msg (output_info st1))] in
          match eval_and_save_best cfg e f0 (cleared st1) with
          | (te, Raise err) => (head ++ te, Raise err)
          | (te, Ok (acc, st2)) =>
              match save_interval cfg with
              | 0 => (head ++ te, Raise ZeroDivisionError)
              | S _ =>
                  (head ++ te ++
                   (if e mod save_interval cfg =? 0
                    then [SaveModel (periodic_prefix e) acc e]
                    else []),
                   Ok st2)
              end
          end
      end
  end.
Proof.
  unfold train_epoch. open_train_epoch.
  fold batch_loop. fold eval_and_save_best.
  unfold emit, lift, ret.
  rewrite bind_ok. cbn [fst snd].
  destruct (self_eval (net st) 0) as [a0|err];
    [rewrite bind_ok | now rewrite bind_raise].
  cbn [fst snd]. rewrite bind_ok. cbn [fst snd].
  destruct (batch_loop cfg e 0 (train_dataloader e) st) as [tb [st1|err]];
    [rewrite bind_ok | now rewrite bind_raise].
  cbn [fst snd]. rewrite bind_ok. cbn [fst snd].
  fold (cleared st1).
  destruct (eval_and_save_best cfg e f0 (cleared st1))
    as [te [[acc st2]|err]];
    [rewrite bind_ok | rewrite bind_raise; cbn; now rewrite <- app_assoc].
  cbn [fst snd].
  destruct (save_interval cfg) as [|si]; cbn [pymod].
  - rewrite bind_raise. cbn. now rewrite app_nil_r, <- app_assoc.
  - rewrite bind_ok. cbn [fst snd].
    destruct (e mod S si =? 0); rewrite bind_ok; cbn;
      now rewrite ?app_nil_r, <- !app_assoc.
Qed.
Lemma batch_events_projections cfg e i0 oi h (tb : list (event F)) p :
  Forall (batch_event_ok cfg e i0 oi h) tb ->
  saves_with p tb = [] /\ periodic_saves tb = [] /\
  logged_epochs tb = [] /\ filter (@is_epoch_start F) tb = [].
Proof.
  induction 1 as [|ev tb Hev _ IH]; [now repeat split|].
  destruct IH as (I1 & I2 & I3 & I4).
  destruct ev; cbn [batch_event_ok] in Hev; try contradiction;
    cbn [saves_with periodic_saves logged_epochs flat_map filter
         is_epoch_start app];
    fold (saves_with p tb); fold (periodic_saves tb);
    fold (logged_epochs tb); auto.
Qed.

Lemma batch_events_log_ok cfg e n (tb : list (event F)) :
  Forall (batch_event_ok cfg e 0 [] (batch_history n (train_dataloader e))) tb ->
  Forall (epoch_log_ok forward loss_func metric_func backward optimizer_step
                       clear_grad lr_step train_dataloader cfg e n) tb.
Proof.
  intros H. eapply Forall_impl; [|exact H]. intros ev.
  destruct ev; cbn [batch_event_ok epoch_log_ok]; try tauto.
  intros (-> & Hi & Hm & ->).
  rewrite batch_history_length in Hi. split; [reflexivity|].
  split; [lia|]. split; [assumption|].
  rewrite Nat.sub_0_r. apply metric_msg_record_all.
Qed.

(** The case analysis of one epoch: first evaluation, batch loop, gate,
    gated evaluation, comparison, periodic save. *)
Ltac epoch_cases cfg e st :=
  let Hb := fresh "Hb" in
  rewrite train_epoch_cases;
  pose proof (batch_loop_spec cfg e (train_dataloader e) 0 st) as Hb;
  cbn zeta in Hb;
  destruct (self_eval (net st) 0) as [?a0|?err] eqn:?E0;
  [ destruct (batch_loop cfg e 0 (train_dataloader e) st)
      as [?tb [?st1|?err]] eqn:?Eb;
    cbn [fst snd] in Hb |- *;
    destruct Hb as (?Hall & ?Hupd & ?Hst);
    [ let Hn := fresh "Hn" in
      let Hbest := fresh "Hbest" in
      let Hoi := fresh "Hoi" in
      let Hg := fresh "Hg" in
      match goal with
      | H : forall st', Ok ?s = Ok st' -> _ |- _ =>
          destruct (H s eq_refl) as (Hn & Hbest & Hoi & Hg)
      end;
      rewrite eval_and_save_best_cases;
      cbn [cleared net best_metric output_info global_step];
      rewrite ?Hbest;
      destruct (eval_gate cfg e) eqn:?Eg;
      [ match goal with
        | |- context [self_eval (net ?s) e] =>
            destruct (self_eval (net s) e) as [?acc|?err] eqn:?Ee;
            [ match goal with
              | |- context [fgtb ?a (metric (best_metric st))] =>
                  destruct (fgtb a (metric (best_metric st))) eqn:?Egt
              end
            | ]
        end
      | ];
      cbn iota beta zeta;
      try (destruct (save_interval cfg) as [|?si] eqn:?Es;
           [| match goal with
              | |- context [e mod S ?k =? 0] =>
                  destruct (e mod S k =? 0) eqn:?Em
              end ])
    | ]
  | ].

Ltac proj_simpl :=
  unfold saves_with, periodic_saves, logged_epochs in *;
  repeat (rewrite ?flat_map_app, ?filter_app;
          cbn [flat_map filter app is_update_event is_forward]);
  rewrite ?periodic_prefix_not_best, ?String.eqb_refl;
  repeat match goal with
         | H : flat_map _ ?t = [] |- context [flat_map _ ?t] => rewrite H
         | H : filter _ ?t = [] |- context [filter _ ?t] => rewrite H
         end;
  cbn [app].

Lemma train_epoch_best cfg e (st : St) :
  let tr := fst (train_epoch cfg e st) in
  let r := snd (train_epoch cfg e st) in
  saves_with best_prefix tr =
    match gated_recall cfg e st with
    | Some a => if fgtb a (metric (best_metric st)) then [(a, e)] else []
    | None => []
    end /\
  forall st', r = Ok st' ->
    best_metric st' =
      match gated_recall cfg e st with
      | Some a => if fgtb a (metric (best_metric st))
                  then {| metric := a; epoch := e |}
                  else best_metric st
      | None => best_metric st
      end /\
    output_info st' = [] /\
    save_interval cfg <> 0 /\
    net st' = fold_left net_after_batch (train_dataloader e) (net st).
Proof.
  cbn zeta. unfold gated_recall. open_gated_recall.
  fold batch_loop.
  epoch_cases cfg e st.
  all: cbn [fst snd].
  all: try rewrite E0; try rewrite Eb; cbn [snd]; try rewrite Eg;
    try rewrite Ee; try rewrite Egt.
  all: try (destruct (batch_events_projections best_prefix Hall)
              as (P1 & P2 & P3 & P4)).
  all: (split; [proj_simpl; reflexivity|]).
  all: intros st' E; try discriminate E; injection E as <-.
  all: cbn [cleared net best_metric output_info].
  all: repeat split; try assumption; try discriminate.
Qed.
Lemma train_epoch_periodic cfg e (st : St) :
  let tr := fst (train_epoch cfg e st) in
  let r := snd (train_epoch cfg e st) in
  periodic_saves tr =
    if is_ok r
    then if e mod save_interval cfg =? 0
         then [(periodic_prefix e, epoch_acc cfg e st, e)]
         else []
    else [].
Proof.
  cbn zeta. unfold epoch_acc. open_epoch_acc.
  fold batch_loop.
  epoch_cases cfg e st.
  all: cbn [fst snd is_ok].
  all: try rewrite E0; try rewrite Eb; cbn [snd]; try rewrite Eg;
    try rewrite Ee; try rewrite Em.
  all: try (destruct (batch_events_projections best_prefix Hall)
              as (P1 & P2 & P3 & P4)).
  all: proj_simpl; reflexivity.
Qed.

Lemma train_epoch_logged cfg e (st : St) :
  let tr := fst (train_epoch cfg e st) in
  let r := snd (train_epoch cfg e st) in
  (is_ok r = true -> logged_epochs tr = [e]) /\
  (logged_epochs tr = [] \/ logged_epochs tr = [e]).
Proof.
  cbn zeta.
  epoch_cases cfg e st.
  all: cbn [fst snd is_ok].
  all: try (destruct (batch_events_projections best_prefix Hall)
              as (P1 & P2 & P3 & P4)).
  all: proj_simpl.
  all: split; [try discriminate; reflexivity | auto].
Qed.

Lemma train_epoch_updates cfg e (st : St) :
  let tb := fst (batch_loop cfg e 0 (train_dataloader e) st) in
  let tr := fst (train_epoch cfg e st) in
  let r := snd (train_epoch cfg e st) in
  (filter (@is_update_event F) tr = filter (@is_update_event F) tb /\
   filter (@is_forward F) tr = filter (@is_forward F) tb /\
   (is_ok r = true ->
    is_ok (snd (batch_loop cfg e 0 (train_dataloader e) st)) = true)) \/
  (filter (@is_update_event F) tr = [] /\
   filter (@is_forward F) tr = [] /\ is_ok r = false).
Proof.
  cbn zeta.
  epoch_cases cfg e st.
  all: cbn [fst snd is_ok].
  all: proj_simpl; rewrite ?app_nil_r.
  all: try (left; repeat split; auto; discriminate).
  right. now repeat split.
Qed.

Lemma train_epoch_counts cfg e (st : St) :
  let tr := fst (train_epoch cfg e st) in
  let r := snd (train_epoch cfg e st) in
  exists k,
    filter (@is_update_event F) tr = concat (repeat (update_sequence F) k) /\
    k <= length (filter (@is_forward F) tr) <= S k /\
    length (filter (@is_forward F) tr) <= length (train_dataloader e) /\
    (is_ok r = true ->
     k = length (train_dataloader e) /\
     length (filter (@is_forward F) tr) = length (train_dataloader e)).
Proof.
  cbn zeta.
  destruct (train_epoch_updates cfg e st) as [(Eu & Ef & Hok)|(Eu & Ef & Hr)].
  - destruct (batch_loop_spec cfg e (train_dataloader e) 0 st)
      as (_ & (k & Hk & Hkf & Hfl & Hfull) & _).
    exists k. rewrite Eu, Ef.
    split; [assumption|]. split; [lia|]. split; [assumption|].
    intros Hr. apply Hok in Hr. now apply Hfull.
  - exists 0. rewrite Eu, Ef, Hr. cbn.
    split; [reflexivity|]. split; [lia|]. split; [lia|]. discriminate.
Qed.

Lemma train_epoch_starts cfg e (st : St) :
  e <> 0 ->
  filter (@is_epoch_start F) (fst (train_epoch cfg e st)) = [EvalCall 0].
Proof.
  intros He. destruct e as [|e']; [contradiction|].
  epoch_cases cfg (S e') st.
  all: cbn [fst snd].
  all: try (destruct (batch_events_projections best_prefix Hall)
              as (P1 & P2 & P3 & P4)).
  all: repeat (rewrite ?filter_app; cbn [filter app is_epoch_start]).
  all: rewrite ?P4; reflexivity.
Qed.

Lemma train_epoch_logs_ok cfg e (st : St) :
  output_info st = [] ->
  Forall (epoch_log_ok forward loss_func metric_func backward optimizer_step
                       clear_grad lr_step train_dataloader cfg e (net st))
         (fst (train_epoch cfg e st)).
Proof.
  intros Hempty.
  epoch_cases cfg e st.
  all: cbn [fst snd].
  all: try (rewrite Hempty in Hall; apply batch_events_log_ok in Hall).
  all: repeat first [ apply Forall_app; split
                    | apply Forall_cons
                    | apply Forall_nil
                    | assumption ].
  all: cbn [epoch_log_ok]; try exact I.
  all: split; [reflexivity|]; rewrite Hoi, Hempty;
    apply metric_msg_record_all.
Qed.
Lemma epoch_loop_cons cfg e rest (st : St) :
  epoch_loop cfg (e :: rest) st =
  bind (train_epoch cfg e st) (fun st1 => epoch_loop cfg rest st1).
Proof. reflexivity. Qed.

Lemma epoch_loop_fst cfg e rest (st : St) :
  fst (epoch_loop cfg (e :: rest) st) =
  fst (train_epoch cfg e st) ++
  match snd (train_epoch cfg e st) with
  | Ok st1 => fst (epoch_loop cfg rest st1)
  | Raise _ => []
  end.
Proof. rewrite epoch_loop_cons. apply bind_fst. Qed.

Lemma epoch_loop_snd cfg e rest (st : St) :
  snd (epoch_loop cfg (e :: rest) st) =
  match snd (train_epoch cfg e st) with
  | Ok st1 => snd (epoch_loop cfg rest st1)
  | Raise err => Raise err
  end.
Proof. rewrite epoch_loop_cons. apply bind_snd. Qed.

Lemma epoch_log_ok_run cfg e rest n ev :
  epoch_log_ok forward loss_func metric_func backward optimizer_step
               clear_grad lr_step train_dataloader cfg e n ev ->
  run_log_ok forward loss_func metric_func backward optimizer_step
             clear_grad lr_step train_dataloader cfg n (e :: rest) ev.
Proof.
  destruct ev; cbn [run_log_ok]; try tauto; intros H.
  - assert (E : epoch_id = e) by (cbn in H; tauto). subst epoch_id.
    split; [now left|]. cbn [net_at]. now rewrite Nat.eqb_refl.
  - assert (E : epoch_id = e) by (cbn in H; tauto). subst epoch_id.
    split; [now left|]. cbn [net_at]. now rewrite Nat.eqb_refl.
Qed.

Lemma run_log_ok_later cfg e rest n ev :
  ~ In e rest ->
  run_log_ok forward loss_func metric_func backward optimizer_step
             clear_grad lr_step train_dataloader cfg
             (fold_left net_after_batch (train_dataloader e) n) rest ev ->
  run_log_ok forward loss_func metric_func backward optimizer_step
             clear_grad lr_step train_dataloader cfg n (e :: rest) ev.
Proof.
  intros Hnot.
  destruct ev; cbn [run_log_ok]; try tauto; intros [Hin H].
  - split; [now right|]. cbn [net_at].
    destruct (Nat.eqb_spec e epoch_id) as [->|_]; [contradiction|exact H].
  - split; [now right|]. cbn [net_at].
    destruct (Nat.eqb_spec e epoch_id) as [->|_]; [contradiction|exact H].
Qed.

Lemma epoch_loop_logs cfg es :
  NoDup es -> forall st : St, output_info st = [] ->
  Forall (run_log_ok forward loss_func metric_func backward optimizer_step
                     clear_grad lr_step train_dataloader cfg (net st) es)
         (fst (epoch_loop cfg es st)).
Proof.
  induction es as [|e rest IH]; intros Hnd st Hempty; [constructor|].
  apply NoDup_cons_iff in Hnd as [Hnot Hnd].
  rewrite epoch_loop_fst. apply Forall_app. split.
  - eapply Forall_impl; [|apply train_epoch_logs_ok; exact Hempty].
    intros ev. apply epoch_log_ok_run.
  - destruct (snd (train_epoch cfg e st)) as [st1|err] eqn:Er; [|constructor].
    destruct (train_epoch_best cfg e st) as [_ Hst].
    destruct (Hst st1 Er) as (_ & Hoi & _ & Hn).
    eapply Forall_impl; [|apply (IH Hnd st1 Hoi)].
    intros ev. rewrite Hn. now apply run_log_ok_later.
Qed.

Lemma epoch_loop_logged cfg es : forall st : St,
  (exists k, logged_epochs (fst (epoch_loop cfg es st)) = firstn k es) /\
  (is_ok (snd (epoch_loop cfg es st)) = true ->
   logged_epochs (fst (epoch_loop cfg es st)) = es).
Proof.
  induction es as [|e rest IH]; intros st.
  - split; [now exists 0 | reflexivity].
  - rewrite epoch_loop_fst, epoch_loop_snd.
    unfold logged_epochs. rewrite flat_map_app.
    fold (logged_epochs (fst (train_epoch cfg e st))).
    destruct (train_epoch_logged cfg e st) as [Hok Hany].
    destruct (snd (train_epoch cfg e st)) as [st1|err] eqn:Er.
    + rewrite (Hok eq_refl). destruct (IH st1) as [[k Hk] Hfull].
      fold (logged_epochs (fst (epoch_loop cfg rest st1))).
      split.
      * exists (S k). cbn. now rewrite Hk.
      * intros H. cbn. now rewrite (Hfull H).
    + cbn [flat_map]. rewrite app_nil_r. split; [|discriminate].
      destruct Hany as [->| ->]; [now exists 0 | now exists 1].
Qed.

Lemma epoch_loop_starts cfg es :
  Forall (fun e => e <> 0) es -> forall st : St,
  length (filter (@is_epoch_start F) (fst (epoch_loop cfg es st)))
    <= length es /\
  (is_ok (snd (epoch_loop cfg es st)) = true ->
   length (filter (@is_epoch_start F) (fst (epoch_loop cfg es st)))
     = length es).
Proof.
  induction 1 as [|e rest He _ IH]; intros st.
  - split; [apply Nat.le_refl | reflexivity].
  - rewrite epoch_loop_fst, epoch_loop_snd, filter_app, length_app.
    rewrite (train_epoch_starts cfg st He). cbn [length].
    destruct (snd (train_epoch cfg e st)) as [st1|err].
    + destruct (IH st1) as [Hle Hfull]. split; [lia|].
      intros H. specialize (Hfull H). lia.
    + cbn. split; [lia | discriminate].
Qed.

Lemma total_batches_cons e rest :
  total_batches train_dataloader (e :: rest) =
  length (train_dataloader e) + total_batches train_dataloader rest.
Proof. reflexivity. Qed.

Lemma epoch_loop_counts cfg es : forall st : St,
  let tr := fst (epoch_loop cfg es st) in
  let r := snd (epoch_loop cfg es st) in
  exists k,
    filter (@is_update_event F) tr = concat (repeat (update_sequence F) k) /\
    k <= length (filter (@is_forward F) tr) <= S k /\
    length (filter (@is_forward F) tr) <= total_batches train_dataloader es /\
    (is_ok r = true ->
     k = total_batches train_dataloader es /\
     length (filter (@is_forward F) tr) = total_batches train_dataloader es).
Proof.
  induction es as [|e rest IH]; intros st; cbn zeta.
  - exists 0. cbn. split; [reflexivity|]. split; [lia|]. split; [lia|].
    intros _. now split.
  - rewrite epoch_loop_fst, epoch_loop_snd, !filter_app, length_app.
    rewrite total_batches_cons.
    destruct (train_epoch_counts cfg e st) as (k1 & Hk1 & Hkf1 & Hfl1 & Hfull1).
    destruct (snd (train_epoch cfg e st)) as [st1|err].
    + destruct (Hfull1 eq_refl) as [-> Hf1].
      destruct (IH st1) as (k2 & Hk2 & Hkf2 & Hfl2 & Hfull2).
      exists (length (train_dataloader e) + k2).
      rewrite Hk1, Hk2, concat_repeat_add, Hf1.
      split; [reflexivity|]. split; [lia|]. split; [lia|].
      intros H. specialize (Hfull2 H). lia.
    + exists k1. cbn [filter length]. rewrite app_nil_r, Nat.add_0_r.
      split; [assumption|]. split; [lia|]. split; [lia|]. discriminate.
Qed.

Lemma epoch_loop_best cfg es : forall (st st' : St),
  snd (epoch_loop cfg es st) = Ok st' ->
  clos_refl_trans _ (@best_step F SF) (best_metric st) (best_metric st') /\
  (output_info st = [] -> output_info st' = []).
Proof.
  induction es as [|e rest IH]; intros st st' E.
  - injection E as <-. split; [apply rt_refl | trivial].
  - rewrite epoch_loop_snd in E.
    destruct (snd (train_epoch cfg e st)) as [st1|err] eqn:Er;
      [|discriminate].
    destruct (train_epoch_best cfg e st) as [_ Hst].
    destruct (Hst st1 Er) as (Hb & Hoi & _ & _).
    destruct (IH st1 st' E) as [Hrt Hout]. split; [|auto].
    eapply rt_trans; [|exact Hrt]. rewrite Hb.
    destruct (gated_recall cfg e st) as [a|]; [|apply rt_refl].
    destruct (fgtb a (metric (best_metric st))) eqn:Egt; [|apply rt_refl].
    apply rt_step. right. exact Egt.
Qed.

Lemma epoch_loop_periodic cfg es : forall st : St,
  is_ok (snd (epoch_loop cfg es st)) = true ->
  map (fun x => (fst (fst x), snd x))
      (periodic_saves (fst (epoch_loop cfg es st))) =
  map (fun e => (periodic_prefix e, e))
      (filter (fun e => e mod save_interval cfg =? 0) es).
Proof.
  induction es as [|e rest IH]; intros st Hok; [reflexivity|].
  rewrite epoch_loop_snd in Hok. rewrite epoch_loop_fst.
  unfold periodic_saves. rewrite flat_map_app, map_app.
  fold (periodic_saves (fst (train_epoch cfg e st))).
  rewrite train_epoch_periodic.
  destruct (snd (train_epoch cfg e st)) as [st1|err]; [|discriminate].
  fold (periodic_saves (fst (epoch_loop cfg rest st1))).
  rewrite (IH st1 Hok). cbn [is_ok filter].
  now destruct (e mod save_interval cfg =? 0).
Qed.
(** *** The whole run *)

Let start_state (cfg : Config) (net0 : Net) : St :=
  {| net := resumed_net init_model cfg net0;
     best_metric := resumed_best init_model cfg net0;
     output_info := [];
     global_step := 0 |}.

Let resume_trace (cfg : Config) : list (event F) :=
  match checkpoints cfg with
  | Some path => [InitModel path]
  | None => []
  end.

Let epoch_ids (cfg : Config) (net0 : Net) : list nat :=
  seq (S (epoch (resumed_best init_model cfg net0)))
      (epochs cfg - epoch (resumed_best init_model cfg net0)).

Lemma resume_cases cfg net0 :
  resume init_model cfg net0 = (resume_trace cfg, Ok (start_state cfg net0)).
Proof.
  unfold resume, resume_trace, start_state, resumed_net, resumed_best.
  destruct (checkpoints cfg) as [path|]; [|reflexivity].
  destruct (init_model path net0) as [n [mi|]]; reflexivity.
Qed.

Lemma range_after cfg b :
  range (epoch (F := F) b + 1) (epochs cfg + 1) =
  seq (S (epoch b)) (epochs cfg - epoch b).
Proof. unfold range. f_equal; lia. Qed.

Lemma train_cases cfg net0 :
  train cfg net0 =
  (resume_trace cfg ++ fst (epoch_loop cfg (epoch_ids cfg net0)
                                       (start_state cfg net0)),
   snd (epoch_loop cfg (epoch_ids cfg net0) (start_state cfg net0))).
Proof.
  unfold train. open_train. rewrite resume_cases, bind_ok.
  cbn [best_metric start_state]. now rewrite range_after.
Qed.

Lemma resume_trace_silent cfg :
  filter (@is_update_event F) (resume_trace cfg) = [] /\
  filter (@is_forward F) (resume_trace cfg) = [] /\
  filter (@is_epoch_start F) (resume_trace cfg) = [] /\
  logged_epochs (resume_trace cfg) = [] /\
  periodic_saves (resume_trace cfg) = [].
Proof. unfold resume_trace. now destruct (checkpoints cfg). Qed.

Lemma epoch_ids_positive cfg net0 :
  Forall (fun e => e <> 0) (epoch_ids cfg net0).
Proof.
  apply Forall_forall. intros e Hin. apply in_seq in Hin. lia.
Qed.

(** C2: with a checkpoint configured, [train] calls [init_model], runs
    on the network it loaded, merges the saved metric info into
    [best_metric] and iterates the epochs [best_metric["epoch"] + 1]
    through [epochs]; without a checkpoint it iterates [1] through
    [epochs].  The epochs whose end-of-epoch line is logged are a prefix
    of that range, and the whole range when no exception is raised. *)
Theorem train_resumes_after_best_epoch (cfg : Config) (net0 : Net) :
  let start := epoch (resumed_best init_model cfg net0) in
  let ids := seq (S start) (epochs cfg - start) in
  let st0 := {| net := resumed_net init_model cfg net0;
                best_metric := resumed_best init_model cfg net0;
                output_info := [];
                global_step := 0 |} in
  let loop := epoch_loop cfg ids st0 in
  match checkpoints cfg with
  | Some path =>
      resumed_net init_model cfg net0 = fst (init_model path net0) /\
      resumed_best init_model cfg net0 =
        match snd (init_model path net0) with
        | Some mi => dict_update (@initial_best F SF) mi
        | None => @initial_best F SF
        end /\
      train cfg net0 = (InitModel path :: fst loop, snd loop)
  | None =>
      resumed_net init_model cfg net0 = net0 /\
      start = 0 /\
      ids = seq 1 (epochs cfg) /\
      train cfg net0 = loop
  end /\
  (exists k, logged_epochs (fst (train cfg net0)) = firstn k ids) /\
  (is_ok (snd (train cfg net0)) = true ->
   logged_epochs (fst (train cfg net0)) = ids).
Proof.
  cbn zeta. rewrite train_cases.
  fold (epoch_ids cfg net0). fold (start_state cfg net0).
  cbn [fst snd]. split; [|split].
  - unfold resume_trace, resumed_net, resumed_best, epoch_ids.
    unfold resumed_best.
    destruct (checkpoints cfg) as [path|]; cbn [app].
    + repeat split.
    + cbn [epoch initial_best]. rewrite Nat.sub_0_r.
      repeat split. now destruct (epoch_loop cfg _ _).
  - destruct (resume_trace_silent cfg) as (_ & _ & _ & Hl & _).
    unfold logged_epochs in *. rewrite flat_map_app, Hl. cbn [app].
    apply epoch_loop_logged.
  - destruct (resume_trace_silent cfg) as (_ & _ & _ & Hl & _).
    unfold logged_epochs in *. rewrite flat_map_app, Hl. cbn [app].
    apply epoch_loop_logged.
Qed.

(** C3: in every epoch the "best_model" checkpoint is written exactly
    when the gated evaluation ran and returned a recall strictly above
    the stored best metric; the checkpoint and [best_metric] then hold
    that recall and that epoch number, otherwise [best_metric] is
    unchanged; so [best_metric] never decreases, epoch by epoch and over
    the whole run. *)
Theorem best_metric_nondecreasing_best_model_saved (cfg : Config) :
  (forall (e : nat) (st : St),
      let tr := fst (train_epoch cfg e st) in
      let r := snd (train_epoch cfg e st) in
      saves_with best_prefix tr =
        match gated_recall cfg e st with
        | Some acc => if fgtb acc (metric (best_metric st))
                      then [(acc, e)] else []
        | None => []
        end /\
      forall st', r = Ok st' ->
        best_metric st' =
          match gated_recall cfg e st with
          | Some acc => if fgtb acc (metric (best_metric st))
                        then {| metric := acc; epoch := e |}
                        else best_metric st
          | None => best_metric st
          end /\
        best_step (best_metric st) (best_metric st')) /\
  (forall (net0 : Net) (st' : St),
      snd (train cfg net0) = Ok st' ->
      clos_refl_trans _ (@best_step F SF)
                      (resumed_best init_model cfg net0) (best_metric st')).
Proof.
  split.
  - intros e st. cbn zeta.
    destruct (train_epoch_best cfg e st) as [Hsaves Hst].
    split; [exact Hsaves|]. intros st' E.
    destruct (Hst st' E) as (Hb & _). split; [exact Hb|].
    rewrite Hb. unfold best_step.
    destruct (gated_recall cfg e st) as [acc|]; [|now left].
    destruct (fgtb acc (metric (best_metric st))) eqn:Egt; [|now left].
    right. exact Egt.
  - intros net0 st'. rewrite train_cases. cbn [snd]. intros E.
    apply epoch_loop_best in E as [Hrt _]. exact Hrt.
Qed.

(** C4: an epoch that completes writes the periodic checkpoint
    "ppcls_epoch_<epoch_id>", holding the epoch's [acc] and its number,
    exactly when [save_interval] divides the epoch number; an epoch that
    raises writes none; a run that completes has written one periodic
    checkpoint for each epoch of its range that [save_interval] divides,
    in order, and no other. *)
Theorem periodic_checkpoint_on_save_interval (cfg : Config) :
  (forall (e : nat) (st : St),
      let tr := fst (train_epoch cfg e st) in
      let r := snd (train_epoch cfg e st) in
      (forall st', r = Ok st' ->
         save_interval cfg <> 0 /\
         periodic_saves tr =
           if e mod save_interval cfg =? 0
           then [(periodic_prefix e, epoch_acc cfg e st, e)]
           else []) /\
      (forall err, r = Raise err -> periodic_saves tr = [])) /\
  (forall net0 : Net,
      let start := epoch (resumed_best init_model cfg net0) in
      is_ok (snd (train cfg net0)) = true ->
      map (fun x => (fst (fst x), snd x))
          (periodic_saves (fst (train cfg net0))) =
      map (fun e => (periodic_prefix e, e))
          (filter (fun e => e mod save_interval cfg =? 0)
                  (seq (S start) (epochs cfg - start)))) /\
  (forall e, periodic_prefix e <> best_prefix).
Proof.
  split; [|split].
  - intros e st. cbn zeta.
    pose proof (train_epoch_periodic cfg e st) as Hp. cbn zeta in Hp.
    destruct (train_epoch_best cfg e st) as [_ Hst].
    split.
    + intros st' E. destruct (Hst st' E) as (_ & _ & Hsi & _).
      split; [exact Hsi|]. rewrite Hp, E. reflexivity.
    + intros err E. rewrite Hp, E. reflexivity.
  - intros net0. cbn zeta. rewrite train_cases. cbn [fst snd]. intros Hok.
    destruct (resume_trace_silent cfg) as (_ & _ & _ & _ & Hp).
    unfold periodic_saves in *. rewrite flat_map_app, Hp. cbn [app].
    now apply epoch_loop_periodic.
  - intros e E. pose proof (periodic_prefix_not_best e) as H.
    rewrite E, String.eqb_refl in H. discriminate.
Qed.

(** C5: a batch that completes emits, after its forward pass and
    optional log line, exactly the calls backward, optimizer.step,
    optimizer.clear_grad, lr_sch.step, in this order, and leaves the
    network those four calls produce; a batch that raises emits none of
    them.  Over a whole run these calls make up [k] repetitions of that
    sequence and nothing else, where [k] is the number of batches
    completed: every forward pass but possibly the last, and every batch
    of every epoch of the range when no exception is raised. *)
Theorem one_update_per_batch_in_order (cfg : Config) :
  (forall (e i : nat) (batch : Batch Img) (st : St),
      let tb := fst (train_batch cfg e i batch st) in
      let rb := snd (train_batch cfg e i batch st) in
      (forall st', rb = Ok st' ->
         (exists log, tb = Forward e i :: log ++ update_sequence F /\
                      filter (@is_update_event F) log = []) /\
         filter (@is_update_event F) tb = update_sequence F /\
         net st' =
           lr_step (clear_grad (optimizer_step
             (backward (fst (forward (net st) batch))
                       (snd (forward (net st) batch)))))) /\
      (forall err, rb = Raise err -> filter (@is_update_event F) tb = [])) /\
  (forall net0 : Net,
      let tr := fst (train cfg net0) in
      let start := epoch (resumed_best init_model cfg net0) in
      let ids := seq (S start) (epochs cfg - start) in
      exists k,
        filter (@is_update_event F) tr
          = concat (repeat (update_sequence F) k) /\
        k <= length (filter (@is_forward F) tr) <= S k /\
        (is_ok (snd (train cfg net0)) = true ->
         k = total_batches train_dataloader ids /\
         length (filter (@is_forward F) tr)
           = total_batches train_dataloader ids)).
Proof.
  split.
  - intros e i batch st. cbn zeta. rewrite train_batch_cases.
    assert (Hlog : filter (@is_update_event F) (batch_log cfg e i batch st)
                   = []).
    { unfold batch_log. now destruct (i mod print_batch_step cfg =? 0). }
    destruct (print_batch_step cfg) as [|p].
    + cbn [fst snd]. split; [discriminate | reflexivity].
    + destruct (dict_get "loss" _) as [l|err]; cbn [fst snd]; split.
      * intros st' E. injection E as <-. split; [|split].
        -- exists (batch_log cfg e i batch st). now split.
        -- cbn [filter is_update_event]. rewrite filter_app, Hlog.
           reflexivity.
        -- cbn [net after_batch]. unfold net_after_batch.
           open_net_after_batch.
           now destruct (forward (net st) batch).
      * discriminate.
      * discriminate.
      * intros err' _. cbn [filter is_update_event]. exact Hlog.
  - intros net0. cbn zeta. rewrite train_cases. cbn [fst snd].
    destruct (resume_trace_silent cfg) as (Hu & Hf & _).
    rewrite !filter_app, Hu, Hf. cbn [app].
    destruct (epoch_loop_counts cfg (epoch_ids cfg net0)
                                (start_state cfg net0))
      as (k & Hk & Hkf & _ & Hfull).
    exists k. split; [exact Hk|]. split; [exact Hkf | exact Hfull].
Qed.

(** C6: every value a run logs, in a per-iteration line or in the
    end-of-epoch line, is the batch-size-weighted average (sum of value
    times batch size over sum of batch sizes) of the values recorded
    under that key for the batches of the current epoch processed so
    far, and for no batch of another epoch; [output_info] is empty
    again at the end of every epoch. *)
Theorem logged_values_are_epoch_weighted_averages (cfg : Config) (net0 : Net) :
  let tr := fst (train cfg net0) in
  let start := epoch (resumed_best init_model cfg net0) in
  let ids := seq (S start) (epochs cfg - start) in
  let net_of e := net_at forward backward optimizer_step clear_grad lr_step
                         train_dataloader
                         (resumed_net init_model cfg net0) ids e in
  (forall e i msg, In (LogIter e i msg) tr ->
      In e ids /\
      i < length (train_dataloader e) /\
      i mod print_batch_step cfg = 0 /\
      msg = map (fun key =>
                   (key, weighted_average
                           (values_of key
                              (firstn (S i)
                                 (batch_history (net_of e)
                                                (train_dataloader e))))))
                (keys_of (firstn (S i)
                            (batch_history (net_of e)
                                           (train_dataloader e))))) /\
  (forall e msg, In (LogAvg e msg) tr ->
      In e ids /\
      msg = map (fun key =>
                   (key, weighted_average
                           (values_of key
                              (batch_history (net_of e)
                                             (train_dataloader e)))))
                (keys_of (batch_history (net_of e) (train_dataloader e)))) /\
  (forall e (st st' : St),
      snd (train_epoch cfg e st) = Ok st' -> output_info st' = []) /\
  (forall st' : St, snd (train cfg net0) = Ok st' -> output_info st' = []).
Proof.
  cbn zeta. rewrite train_cases. cbn [fst snd].
  assert (Hlogs :
    Forall (run_log_ok forward loss_func metric_func backward optimizer_step
                       clear_grad lr_step train_dataloader cfg
                       (resumed_net init_model cfg net0)
                       (epoch_ids cfg net0))
           (resume_trace cfg ++
            fst (epoch_loop cfg (epoch_ids cfg net0) (start_state cfg net0)))).
  { apply Forall_app. split.
    - unfold resume_trace. destruct (checkpoints cfg); repeat constructor.
    - apply (epoch_loop_logs cfg (seq_NoDup _ _) (start_state cfg net0)).
      reflexivity. }
  rewrite Forall_forall in Hlogs.
  split; [|split; [|split]].
  - intros e i msg Hin. specialize (Hlogs _ Hin).
    cbn [run_log_ok epoch_log_ok] in Hlogs.
    destruct Hlogs as (Hid & _ & Hi & Hm & Hmsg). now repeat split.
  - intros e msg Hin. specialize (Hlogs _ Hin).
    cbn [run_log_ok epoch_log_ok] in Hlogs.
    destruct Hlogs as (Hid & _ & Hmsg). now split.
  - intros e st st' E. destruct (train_epoch_best cfg e st) as [_ Hst].
    now destruct (Hst st' E) as (_ & Hoi & _).
  - intros st' E. apply epoch_loop_best in E as [_ Hout]. now apply Hout.
Qed.

(** C7: a run iterates the epoch loop at most, and without exception
    exactly, once per epoch of the finite range from the resume epoch to
    [epochs], and the batch loop at most, and without exception exactly,
    once per batch of the finite passes of those epochs. *)
Theorem train_terminates_bounded_iterations (cfg : Config) (net0 : Net) :
  let tr := fst (train cfg net0) in
  let start := epoch (resumed_best init_model cfg net0) in
  let ids := range (start + 1) (epochs cfg + 1) in
  length ids = epochs cfg - start /\
  length (filter (@is_epoch_start F) tr) <= length ids /\
  length (filter (@is_forward F) tr) <= total_batches train_dataloader ids /\
  (is_ok (snd (train cfg net0)) = true ->
   length (filter (@is_epoch_start F) tr) = length ids /\
   length (filter (@is_forward F) tr) = total_batches train_dataloader ids).
Proof.
  cbn zeta. rewrite range_after, train_cases. cbn [fst snd].
  fold (epoch_ids cfg net0).
  destruct (resume_trace_silent cfg) as (_ & Hf & Hs & _).
  rewrite !filter_app, Hf, Hs. cbn [app].
  destruct (epoch_loop_starts cfg (epoch_ids_positive cfg net0)
                              (start_state cfg net0)) as [Hle Hfull].
  destruct (epoch_loop_counts cfg (epoch_ids cfg net0) (start_state cfg net0))
    as (k & _ & _ & Hfl & Hfull').
  split; [apply length_seq|]. split; [exact Hle|]. split; [exact Hfl|].
  intros H. split; [now apply Hfull | now apply Hfull'].
Qed.
(** *** Edge behaviour of [Trainer.train] *)

Lemma epoch_ids_nil cfg net0 :
  epochs cfg <= epoch (resumed_best init_model cfg net0) ->
  epoch_ids cfg net0 = [].
Proof.
  intros H. unfold epoch_ids.
  replace (epochs cfg - epoch (resumed_best init_model cfg net0)) with 0
    by lia.
  reflexivity.
Qed.

Lemma epoch_ids_cons cfg net0 :
  epoch (resumed_best init_model cfg net0) < epochs cfg ->
  epoch_ids cfg net0 =
  S (epoch (resumed_best init_model cfg net0))
  :: seq (S (S (epoch (resumed_best init_model cfg net0))))
         (epochs cfg - S (epoch (resumed_best init_model cfg net0))).
Proof.
  intros H. unfold epoch_ids.
  replace (epochs cfg - epoch (resumed_best init_model cfg net0))
    with (S (epochs cfg - S (epoch (resumed_best init_model cfg net0))))
    by lia.
  reflexivity.
Qed.

(** X7: when the resumed [best_metric["epoch"]] is already at or past
    [epochs] (or [epochs] is 0), the epoch range is empty: [train] does
    the resume and returns, with no evaluation, no training step and no
    checkpoint. *)
Theorem train_nothing_to_do_after_final_epoch (cfg : Config) (net0 : Net) :
  epochs cfg <= epoch (resumed_best init_model cfg net0) ->
  train cfg net0 =
  (match checkpoints cfg with
   | Some path => [InitModel path]
   | None => []
   end,
   Ok {| net := resumed_net init_model cfg net0;
         best_metric := resumed_best init_model cfg net0;
         output_info := [];
         global_step := 0 |}).
Proof.
  intros H. rewrite train_cases, (epoch_ids_nil cfg net0 H).
  unfold resume_trace, start_state. cbn. now rewrite app_nil_r.
Qed.

(** X8: [self.eval(0)] is called before anything else in the first
    epoch, whatever [eval_during_train] says; when it raises (empty
    evaluation loaders, a [num_split] that does not divide the query
    count, [print_batch_step = 0]) the run ends there with that
    exception: no batch is trained and no checkpoint is written. *)
Theorem train_aborts_when_first_evaluation_raises
    (cfg : Config) (net0 : Net) (err : exn) :
  epoch (resumed_best init_model cfg net0) < epochs cfg ->
  self_eval (resumed_net init_model cfg net0) 0 = Raise err ->
  train cfg net0 =
  (match checkpoints cfg with
   | Some path => [InitModel path; EvalCall 0]
   | None => [EvalCall 0]
   end,
   Raise err).
Proof.
  intros Hlt Herr.
  rewrite train_cases, (epoch_ids_cons cfg net0 Hlt).
  rewrite epoch_loop_fst, epoch_loop_snd, train_epoch_cases.
  cbn [net start_state]. rewrite Herr. cbn [fst snd].
  unfold resume_trace. now destruct (checkpoints cfg).
Qed.

(** X9: [save_interval = 0] does not switch periodic checkpoints off:
    the first epoch of a non-empty range runs and then
    [epoch_id % save_interval] raises (if nothing raised before), so the
    run never completes, starts one epoch only and writes no periodic
    checkpoint. *)
Theorem train_zero_save_interval_raises (cfg : Config) (net0 : Net) :
  let first := S (epoch (resumed_best init_model cfg net0)) in
  let st0 := {| net := resumed_net init_model cfg net0;
                best_metric := resumed_best init_model cfg net0;
                output_info := [];
                global_step := 0 |} in
  save_interval cfg = 0 ->
  epoch (resumed_best init_model cfg net0) < epochs cfg ->
  is_ok (snd (train cfg net0)) = false /\
  length (filter (@is_epoch_start F) (fst (train cfg net0))) = 1 /\
  periodic_saves (fst (train cfg net0)) = [] /\
  (forall st1 : St,
      is_ok (self_eval (resumed_net init_model cfg net0) 0) = true ->
      snd (batch_loop cfg first 0 (train_dataloader first) st0) = Ok st1 ->
      (eval_gate cfg first = true ->
       is_ok (self_eval (net st1) first) = true) ->
      snd (train cfg net0) = Raise ZeroDivisionError).
Proof.
  cbn zeta. intros Hsi Hlt.
  fold (start_state cfg net0).
  rewrite train_cases, (epoch_ids_cons cfg net0 Hlt).
  set (first := S (epoch (resumed_best init_model cfg net0))).
  rewrite epoch_loop_fst, epoch_loop_snd.
  destruct (resume_trace_silent cfg) as (_ & _ & Hs & _ & Hp).
  assert (Hraise : forall st', snd (train_epoch cfg first (start_state cfg net0))
                               <> Ok st').
  { intros st' E. destruct (train_epoch_best cfg first (start_state cfg net0))
      as [_ Hst].
    destruct (Hst st' E) as (_ & _ & Hne & _). contradiction. }
  pose proof (train_epoch_periodic cfg first (start_state cfg net0)) as Hper.
  cbn zeta in Hper.
  pose proof (@train_epoch_starts cfg first (start_state cfg net0)) as Hstart.
  pose proof (train_epoch_cases cfg first (start_state cfg net0)) as Hcases.
  destruct (train_epoch cfg first (start_state cfg net0)) as [t1 [st'|err]]
    eqn:E1; cbn [fst snd] in *.
  { exfalso. now apply (Hraise st'). }
  rewrite app_nil_r. cbn [is_ok] in *.
  split; [reflexivity|]. split; [|split].
  - rewrite filter_app, Hs, Hstart by (unfold first; lia). reflexivity.
  - unfold periodic_saves in *. now rewrite flat_map_app, Hp, Hper.
  - intros st1 H0 Hb Hgate.
    destruct (self_eval (net (start_state cfg net0)) 0) as [a0|e0] eqn:E0.
    2:{ cbn [net start_state] in E0. rewrite E0 in H0. discriminate. }
    destruct (batch_loop cfg first 0 (train_dataloader first)
                         (start_state cfg net0)) as [tb rb].
    cbn [snd] in Hb. subst rb. cbn zeta in Hcases.
    rewrite eval_and_save_best_cases in Hcases.
    cbn [cleared net best_metric] in Hcases.
    destruct (eval_gate cfg first).
    + specialize (Hgate eq_refl).
      destruct (self_eval (net st1) first) as [acc|e1]; [|discriminate].
      destruct (fgtb acc (metric (best_metric st1)));
        rewrite Hsi in Hcases; now injection Hcases as _ <-.
    + rewrite Hsi in Hcases. now injection Hcases as _ <-.
Qed.
Lemma eval_gate_off cfg e :
  eval_during_train cfg = 0 -> eval_gate cfg e = false.
Proof. intros H. unfold eval_gate. now rewrite H. Qed.

Lemma gated_recall_gate_off cfg e (st : St) :
  eval_gate cfg e = false -> gated_recall cfg e st = None.
Proof.
  intros Hg. unfold gated_recall. open_gated_recall.
  destruct (self_eval (net st) 0); [|reflexivity].
  destruct (snd _); [|reflexivity]. now rewrite Hg.
Qed.

Lemma batch_events_no_eval_call cfg e i0 oi h (tb : list (event F)) e' :
  Forall (batch_event_ok cfg e i0 oi h) tb -> ~ In (EvalCall e') tb.
Proof.
  intros Hall Hin. rewrite Forall_forall in Hall.
  exact (Hall _ Hin).
Qed.

Lemma train_epoch_eval_calls cfg e (st : St) e' :
  eval_gate cfg e = false ->
  In (EvalCall e') (fst (train_epoch cfg e st)) -> e' = 0.
Proof.
  intros Hgate.
  epoch_cases cfg e st.
  all: cbn [fst snd]; try discriminate Hgate.
  all: intros Hin.
  all: cbn [In] in Hin.
  all: repeat first
         [ apply in_app_or in Hin; cbn [In] in Hin
         | destruct Hin as [Hin|Hin] ].
  all: try contradiction; try discriminate Hin.
  all: try (now injection Hin as <-).
  all: try (now apply batch_events_no_eval_call with (e' := e') in Hall).
Qed.
Lemma epoch_acc_gate_off cfg e (st : St) :
  eval_gate cfg e = false -> epoch_acc cfg e st = f0.
Proof.
  intros Hg. pose proof (gated_recall_gate_off cfg e st Hg) as H.
  unfold epoch_acc. open_epoch_acc. fold gated_recall.
  unfold gated_recall in *. revert H. open_gated_recall. now intros ->.
Qed.

Lemma epoch_loop_no_eval cfg es :
  eval_during_train cfg = 0 -> forall st : St,
  saves_with best_prefix (fst (epoch_loop cfg es st)) = [] /\
  (forall e', In (EvalCall e') (fst (epoch_loop cfg es st)) -> e' = 0) /\
  Forall (fun s => snd (fst s) = f0)
         (periodic_saves (fst (epoch_loop cfg es st))) /\
  (forall st', snd (epoch_loop cfg es st) = Ok st' ->
               best_metric st' = best_metric st).
Proof.
  intros Hoff.
  induction es as [|e rest IH]; intros st.
  - cbn. repeat split; try constructor; try contradiction.
    intros st' E. now injection E as <-.
  - rewrite epoch_loop_fst, epoch_loop_snd.
    pose proof (eval_gate_off cfg e Hoff) as Hg.
    destruct (train_epoch_best cfg e st) as [Hsaves Hst].
    rewrite (gated_recall_gate_off cfg e st Hg) in Hsaves, Hst.
    pose proof (train_epoch_periodic cfg e st) as Hper. cbn zeta in Hper.
    rewrite (epoch_acc_gate_off cfg e st Hg) in Hper.
    pose proof (fun e' => @train_epoch_eval_calls cfg e st e' Hg) as Hcalls.
    unfold saves_with, periodic_saves in *.
    rewrite !flat_map_app, Hsaves, Hper.
    destruct (snd (train_epoch cfg e st)) as [st1|err] eqn:Er.
    + destruct (IH st1) as (I1 & I2 & I3 & I4).
      destruct (Hst st1 eq_refl) as (Hb & _).
      unfold saves_with, periodic_saves in *.
      split; [exact I1|]. split; [|split].
      * intros e' Hin. apply in_app_or in Hin as [Hin|Hin];
          [now apply Hcalls | now apply I2].
      * apply Forall_app. split; [|exact I3]. cbn [is_ok].
        destruct (e mod save_interval cfg =? 0); repeat constructor.
      * intros st' E. rewrite (I4 st' E). exact Hb.
    + cbn [flat_map is_ok]. rewrite app_nil_r.
      split; [reflexivity|]. split; [|split].
      * intros e' Hin. apply Hcalls. now rewrite app_nil_r in Hin.
      * constructor.
      * discriminate.
Qed.

(** X10: with [eval_during_train] off (0, False or None) a run never
    evaluates at an epoch's end and never writes "best_model":
    [self.eval] is only called with 0, at the start of each epoch;
    [best_metric] stays what the resume left; every periodic checkpoint
    records the metric 0.0. *)
Theorem train_without_eval_during_train (cfg : Config) (net0 : Net) :
  eval_during_train cfg = 0 ->
  saves_with best_prefix (fst (train cfg net0)) = [] /\
  (forall e, In (EvalCall e) (fst (train cfg net0)) -> e = 0) /\
  Forall (fun s => snd (fst s) = f0) (periodic_saves (fst (train cfg net0))) /\
  (forall st', snd (train cfg net0) = Ok st' ->
               best_metric st' = resumed_best init_model cfg net0).
Proof.
  intros Hoff. rewrite train_cases. cbn [fst snd].
  destruct (epoch_loop_no_eval cfg (epoch_ids cfg net0) Hoff
                               (start_state cfg net0))
    as (I1 & I2 & I3 & I4).
  unfold saves_with, periodic_saves in *. rewrite !flat_map_app.
  unfold resume_trace. split; [|split; [|split]].
  - destruct (checkpoints cfg); cbn; exact I1.
  - intros e Hin. apply in_app_or in Hin as [Hin|Hin]; [|now apply I2].
    destruct (checkpoints cfg); cbn in Hin; [|contradiction].
    destruct Hin as [Hin|[]]. discriminate Hin.
  - destruct (checkpoints cfg); cbn; exact I3.
  - exact I4.
Qed.
Lemma filter_none_outside {A} (keep : A -> bool) (l : list A) :
  (forall x, In x l -> keep x = false) -> filter keep l = [].
Proof.
  induction l as [|x l IH]; intros H; [reflexivity|]. cbn.
  rewrite (H x (or_introl eq_refl)). apply IH.
  intros y Hy. apply H. now right.
Qed.

Lemma filter_same_inside {A} (k1 k2 : A -> bool) (l : list A) :
  (forall x, In x l -> k1 x = k2 x) -> filter k1 l = filter k2 l.
Proof.
  induction l as [|x l IH]; intros H; [reflexivity|]. cbn.
  rewrite (H x (or_introl eq_refl)), IH; [reflexivity|].
  intros y Hy. apply H. now right.
Qed.

Lemma epoch_loop_saves cfg es :
  NoDup es -> forall st : St,
  let saves := saves_with best_prefix (fst (epoch_loop cfg es st)) in
  increasing_from (metric (best_metric st)) (map fst saves) /\
  (exists keep, map snd saves = filter keep es) /\
  (forall st', snd (epoch_loop cfg es st) = Ok st' ->
               best_metric st' = after_saves (best_metric st) saves).
Proof.
  induction es as [|e rest IH]; intros Hnd st; cbn zeta.
  - cbn. split; [exact I|]. split; [now exists (fun _ => true)|].
    intros st' E. now injection E as <-.
  - apply NoDup_cons_iff in Hnd as [Hnot Hnd].
    rewrite epoch_loop_fst, epoch_loop_snd.
    destruct (train_epoch_best cfg e st) as [Hsaves Hst].
    unfold saves_with in *. rewrite flat_map_app, Hsaves.
    assert (Hout : forall (keep : nat -> bool) (b : bool),
               filter (fun x => if x =? e then b else keep x) rest
               = filter keep rest).
    { intros keep b. apply filter_same_inside. intros x Hx.
      destruct (Nat.eqb_spec x e) as [->|_]; [contradiction | reflexivity]. }
    destruct (snd (train_epoch cfg e st)) as [st1|err] eqn:Er.
    + destruct (Hst st1 eq_refl) as (Hb & _).
      destruct (IH Hnd st1) as (Hinc & [keep Hkeep] & Hlast).
      cbn zeta in Hinc, Hlast. unfold saves_with in *.
      destruct (gated_recall cfg e st) as [a|].
      * destruct (fgtb a (metric (best_metric st))) eqn:Egt.
        -- rewrite Hb in Hinc, Hlast. cbn [metric] in Hinc.
           cbn [app map fst snd increasing_from].
           split; [now split|]. split.
           ++ exists (fun x => if x =? e then true else keep x).
              cbn [filter]. rewrite Nat.eqb_refl, Hout. now f_equal.
           ++ intros st' E. rewrite (Hlast st' E). reflexivity.
        -- rewrite Hb in Hinc, Hlast. cbn [app].
           split; [exact Hinc|]. split.
           ++ exists (fun x => if x =? e then false else keep x).
              cbn [filter]. now rewrite Nat.eqb_refl, Hout.
           ++ exact Hlast.
      * rewrite Hb in Hinc, Hlast. cbn [app].
        split; [exact Hinc|]. split.
        -- exists (fun x => if x =? e then false else keep x).
           cbn [filter]. now rewrite Nat.eqb_refl, Hout.
        -- exact Hlast.
    + cbn [flat_map]. rewrite app_nil_r.
      destruct (gated_recall cfg e st) as [a|].
      * destruct (fgtb a (metric (best_metric st))) eqn:Egt.
        -- cbn [map fst snd increasing_from].
           split; [now split|]. split; [|discriminate].
           exists (fun x => x =? e). cbn [filter]. rewrite Nat.eqb_refl.
           f_equal. symmetry. apply filter_none_outside. intros x Hx.
           destruct (Nat.eqb_spec x e) as [->|_]; [contradiction|reflexivity].
        -- cbn. split; [exact I|]. split; [|discriminate].
           exists (fun _ => false). cbn [filter].
           symmetry. now apply filter_none_outside.
      * cbn. split; [exact I|]. split; [|discriminate].
        exists (fun _ => false). cbn [filter].
        symmetry. now apply filter_none_outside.
Qed.

(** X11: the "best_model" checkpoints of a run carry strictly
    increasing metrics, the first above the metric the run started
    with, at epochs taken in order from the run's range (so at most one
    per epoch); when the run completes, [best_metric] is the metric and
    epoch of the last of them, or the resumed one if there is none. *)
Theorem best_model_saves_strictly_increase (cfg : Config) (net0 : Net) :
  let saves := saves_with best_prefix (fst (train cfg net0)) in
  let start := epoch (resumed_best init_model cfg net0) in
  increasing_from (metric (resumed_best init_model cfg net0))
                  (map fst saves) /\
  (exists keep,
      map snd saves = filter keep (seq (S start) (epochs cfg - start))) /\
  (forall st', snd (train cfg net0) = Ok st' ->
               best_metric st' =
               after_saves (resumed_best init_model cfg net0) saves).
Proof.
  cbn zeta. rewrite train_cases. cbn [fst snd].
  destruct (@epoch_loop_saves cfg (epoch_ids cfg net0) (seq_NoDup _ _)
                              (start_state cfg net0))
    as (Hinc & Hkeep & Hlast).
  cbn zeta in Hinc, Hlast.
  assert (E : saves_with best_prefix
                (resume_trace cfg ++
                 fst (epoch_loop cfg (epoch_ids cfg net0)
                                 (start_state cfg net0)))
              = saves_with best_prefix
                  (fst (epoch_loop cfg (epoch_ids cfg net0)
                                   (start_state cfg net0)))).
  { unfold saves_with. rewrite flat_map_app. unfold resume_trace.
    now destruct (checkpoints cfg). }
  rewrite E. split; [exact Hinc|]. split; [exact Hkeep | exact Hlast].
Qed.

Lemma train_epoch_global_step cfg e (st : St) :
  forall st', snd (train_epoch cfg e st) = Ok st' ->
  global_step st' = global_step st + length (train_dataloader e).
Proof.
  intros st'. epoch_cases cfg e st.
  all: cbn [fst snd]; intros E; try discriminate E; injection E as <-.
  all: cbn [cleared global_step]; assumption.
Qed.

Lemma epoch_loop_global_step cfg es : forall (st st' : St),
  snd (epoch_loop cfg es st) = Ok st' ->
  global_step st' = global_step st + total_batches train_dataloader es.
Proof.
  induction es as [|e rest IH]; intros st st' E.
  - injection E as <-. cbn. lia.
  - rewrite epoch_loop_snd in E.
    destruct (snd (train_epoch cfg e st)) as [st1|err] eqn:Er;
      [|discriminate].
    rewrite (IH st1 st' E), (train_epoch_global_step cfg e st Er).
    rewrite total_batches_cons. lia.
Qed.

(** X12: [global_step] counts the batches processed in this run: it
    starts at 0 also after a resume (the checkpoint does not restore it)
    and, when the run completes, equals the number of batches of all the
    epochs of the range. *)
Theorem global_step_counts_batches (cfg : Config) (net0 : Net) :
  let start := epoch (resumed_best init_model cfg net0) in
  forall st', snd (train cfg net0) = Ok st' ->
    global_step st' =
    total_batches train_dataloader (seq (S start) (epochs cfg - start)).
Proof.
  cbn zeta. intros st'. rewrite train_cases. cbn [snd]. intros E.
  apply epoch_loop_global_step in E. exact E.
Qed.

Section MissingLossKey.
Hypothesis no_loss_key :
  forall out labels, dict_get "loss" (loss_func out labels) = Raise KeyError.

Lemma train_batch_raises cfg e i batch (st : St) :
  snd (train_batch cfg e i batch st) =
    Raise (match print_batch_step cfg with
           | 0 => ZeroDivisionError
           | S _ => KeyError
           end) /\
  filter (@is_update_event F) (fst (train_batch cfg e i batch st)) = [].
Proof.
  rewrite train_batch_cases, no_loss_key.
  destruct (print_batch_step cfg) as [|p] eqn:Ep; cbn [fst snd];
    [now split|].
  split; [reflexivity|]. cbn [filter is_update_event].
  unfold batch_log. rewrite Ep. now destruct (i mod S p =? 0).
Qed.

Lemma batch_loop_never_updates cfg e i bs (st : St) :
  filter (@is_update_event F) (fst (batch_loop cfg e i bs st)) = [] /\
  (is_ok (snd (batch_loop cfg e i bs st)) = true -> bs = []).
Proof.
  destruct bs as [|b rest]; [now split|].
  change (batch_loop cfg e i (b :: rest) st)
    with (bind (train_batch cfg e i b st)
               (fun st1 => batch_loop cfg e (S i) rest st1)).
  destruct (train_batch_raises cfg e i b st) as [Hr Hu].
  rewrite bind_fst, bind_snd, Hr, app_nil_r. split; [exact Hu|].
  discriminate.
Qed.

Lemma epoch_loop_never_updates cfg es : forall st : St,
  filter (@is_update_event F) (fst (epoch_loop cfg es st)) = [] /\
  (is_ok (snd (epoch_loop cfg es st)) = true ->
   total_batches train_dataloader es = 0).
Proof.
  induction es as [|e rest IH]; intros st; [now split|].
  rewrite epoch_loop_fst, epoch_loop_snd, filter_app, total_batches_cons.
  destruct (batch_loop_never_updates cfg e 0 (train_dataloader e) st)
    as [Hbu Hbok].
  assert (Hu : filter (@is_update_event F) (fst (train_epoch cfg e st)) = []).
  { destruct (train_epoch_updates cfg e st) as [(Eu & _)|(Eu & _)];
      [now rewrite Eu | exact Eu]. }
  rewrite Hu.
  destruct (snd (train_epoch cfg e st)) as [st1|err] eqn:Er.
  - destruct (IH st1) as [Hru Hrok]. split; [exact Hru|].
    intros Hok. rewrite (Hrok Hok).
    destruct (train_epoch_updates cfg e st) as [(_ & _ & Hb)|(_ & _ & Hb)].
    + rewrite Er in Hb. now rewrite (Hbok (Hb eq_refl)).
    + rewrite Er in Hb. discriminate.
  - split; [reflexivity | discriminate].
Qed.

(** X13: when the loss function's dict has no "loss" entry, every
    batch raises at [loss_dict["loss"]] (KeyError, after its forward
    pass and log line; ZeroDivisionError from the log condition when
    [print_batch_step] is 0), so a run performs no backward pass and
    no optimizer or scheduler step at all, and can only complete if
    its epochs hold no batch. *)
Theorem train_missing_loss_key_never_updates (cfg : Config) (net0 : Net) :
  let start := epoch (resumed_best init_model cfg net0) in
  filter (@is_update_event F) (fst (train cfg net0)) = [] /\
  (is_ok (snd (train cfg net0)) = true ->
   total_batches train_dataloader (seq (S start) (epochs cfg - start)) = 0) /\
  (forall e i batch (st : St),
      print_batch_step cfg <> 0 ->
      snd (train_batch cfg e i batch st) = Raise KeyError).
Proof.
  cbn zeta. rewrite train_cases. cbn [fst snd].
  destruct (epoch_loop_never_updates cfg (epoch_ids cfg net0)
                                     (start_state cfg net0)) as [Hu Hok].
  destruct (resume_trace_silent cfg) as (Hr & _).
  rewrite filter_app, Hr, Hu. split; [reflexivity|]. split; [exact Hok|].
  intros e i batch st Hp.
  destruct (train_batch_raises cfg e i batch st) as [E _].
  rewrite E. destruct (print_batch_step cfg); [contradiction|reflexivity].
Qed.
End MissingLossKey.

(** X14: the periodic checkpoints of different epochs have different
    prefixes, so none overwrites another. *)
Theorem periodic_prefix_injective (e1 e2 : nat) :
  periodic_prefix e1 = periodic_prefix e2 -> e1 = e2.
Proof.
  unfold periodic_prefix. intros E. cbn in E.
  injection E as E.
  apply DecimalNat.Unsigned.to_uint_inj.
  pose proof (DecimalString.NilEmpty.usu (Nat.to_uint e1)) as H1.
  pose proof (DecimalString.NilEmpty.usu (Nat.to_uint e2)) as H2.
  rewrite E in H1. rewrite H1 in H2. now injection H2.
Qed.
End TrainFacts.

(* ================================================================== *)
(** ** The evaluation at the start of an epoch is discarded *)

Section EvalDiscarded.
Variable F : Type.
Context {SF : Scalar F}.
Variables Img Net Out : Type.
Variable forward : Net -> Batch Img -> Net * Out.
Variable loss_func : Out -> list Lab -> dict F.
Variable metric_func : option (Out -> list Lab -> dict F).
Variable backward : Net -> Out -> Net.
Variables optimizer_step clear_grad lr_step : Net -> Net.
Variable init_model : string -> Net -> Net * option (MetricInfo F).
Variable train_dataloader : nat -> list (Batch Img).

(** Two candidates for [self.eval]. *)
Variables self_eval self_eval' : Net -> nat -> result F.

Let train_epoch_with (ev : Net -> nat -> result F) :=
  train_epoch forward loss_func metric_func backward optimizer_step
              clear_grad lr_step ev train_dataloader.
Let epoch_loop_with (ev : Net -> nat -> result F) :=
  epoch_loop forward loss_func metric_func backward optimizer_step
             clear_grad lr_step ev train_dataloader.
Let train_with (ev : Net -> nat -> result F) :=
  train forward loss_func metric_func backward optimizer_step
        clear_grad lr_step init_model ev train_dataloader.
Let batch_loop :=
  batch_loop forward loss_func metric_func backward optimizer_step
             clear_grad lr_step.
Let epoch_acc :=
  epoch_acc forward loss_func metric_func backward optimizer_step
            clear_grad lr_step self_eval train_dataloader.

Hypothesis same_later :
  forall n e, e <> 0 -> self_eval n e = self_eval' n e.
Hypothesis same_outcome_first :
  forall n, match self_eval n 0, self_eval' n 0 with
            | Ok _, Ok _ => True
            | Raise a, Raise b => a = b
            | _, _ => False
            end.

Lemma eval_and_save_best_same cfg e acc (st : Locals F Net) :
  e <> 0 ->
  eval_and_save_best self_eval cfg e acc st =
  eval_and_save_best self_eval' cfg e acc st.
Proof.
  intros He. unfold eval_and_save_best. now rewrite (same_later _ He).
Qed.

Lemma train_epoch_same cfg e (st : Locals F Net) :
  e <> 0 ->
  train_epoch_with self_eval cfg e st = train_epoch_with self_eval' cfg e st.
Proof.
  intros He. unfold train_epoch_with. rewrite !train_epoch_cases.
  pose proof (same_outcome_first (net st)) as H0.
  destruct (self_eval (net st) 0) as [a|err],
           (self_eval' (net st) 0) as [a'|err']; try contradiction.
  - fold batch_loop.
    destruct (batch_loop cfg e 0 (train_dataloader e) st)
      as [tb [st1|err]]; [|reflexivity].
    cbn zeta. now rewrite eval_and_save_best_same.
  - now subst err'.
Qed.

Lemma epoch_loop_same cfg es :
  Forall (fun e => e <> 0) es -> forall st : Locals F Net,
  epoch_loop_with self_eval cfg es st = epoch_loop_with self_eval' cfg es st.
Proof.
  induction 1 as [|e rest He _ IH]; intros st; [reflexivity|].
  unfold epoch_loop_with in *. cbn [epoch_loop].
  fold (train_epoch_with self_eval cfg e st).
  fold (train_epoch_with self_eval' cfg e st).
  rewrite (train_epoch_same cfg st He).
  destruct (train_epoch_with self_eval' cfg e st) as [t [st1|err]];
    [|reflexivity].
  cbn [bind]. now rewrite IH.
Qed.

(** C8: the periodic checkpoint of a completed epoch records the recall
    of the gated evaluation when the gate held, and 0.0 otherwise; the
    value the evaluation at the start of an epoch returns influences
    nothing: replacing it by any other value leaves every epoch and the
    whole run (trace, checkpoints, [best_metric]) unchanged. *)
Theorem periodic_metric_ignores_first_evaluation (cfg : Config) :
  (forall e (st st' : Locals F Net),
      snd (train_epoch_with self_eval cfg e st) = Ok st' ->
      periodic_saves (fst (train_epoch_with self_eval cfg e st)) =
        (if e mod save_interval cfg =? 0
         then [(periodic_prefix e, epoch_acc cfg e st, e)]
         else []) /\
      exists st1,
        snd (batch_loop cfg e 0 (train_dataloader e) st) = Ok st1 /\
        if eval_gate cfg e
        then exists acc, self_eval (net st1) e = Ok acc /\
                         epoch_acc cfg e st = acc
        else epoch_acc cfg e st = f0) /\
  (forall e (st : Locals F Net), e <> 0 ->
      train_epoch_with self_eval cfg e st =
      train_epoch_with self_eval' cfg e st) /\
  (forall net0 : Net, train_with self_eval cfg net0 = train_with self_eval' cfg net0).
Proof.
  split; [|split].
  - intros e st st' E.
    pose proof (train_epoch_periodic forward loss_func metric_func backward
                  optimizer_step clear_grad lr_step init_model self_eval
                  train_dataloader cfg e st) as Hp.
    cbn zeta in Hp. unfold train_epoch_with in *. rewrite E in Hp.
    split; [exact Hp|].
    unfold epoch_acc. open_epoch_acc. fold batch_loop.
    rewrite train_epoch_cases in E. fold batch_loop in E.
    destruct (self_eval (net st) 0) as [a0|err0]; [|discriminate].
    destruct (batch_loop cfg e 0 (train_dataloader e) st)
      as [tb [st1|errb]]; [|discriminate].
    exists st1. split; [reflexivity|]. cbn [snd].
    cbn zeta in E. rewrite eval_and_save_best_cases in E.
    cbn [cleared net] in E.
    destruct (eval_gate cfg e); [|reflexivity].
    destruct (self_eval (net st1) e) as [acc|erre]; [|discriminate].
    now exists acc.
  - intros e st He. now apply train_epoch_same.
  - intros net0. unfold train_with, train.
    destruct (resume init_model cfg net0) as [t [st0|err]]; [|reflexivity].
    cbn [bind]. unfold range.
    fold (epoch_loop_with self_eval cfg
            (seq (epoch (best_metric st0) + 1)
                 (epochs cfg + 1 - (epoch (best_metric st0) + 1))) st0).
    fold (epoch_loop_with self_eval' cfg
            (seq (epoch (best_metric st0) + 1)
                 (epochs cfg + 1 - (epoch (best_metric st0) + 1))) st0).
    rewrite epoch_loop_same; [reflexivity|].
    apply Forall_forall. intros e Hin. apply in_seq in Hin. lia.
Qed.
End EvalDiscarded.

(* ================================================================== *)
(** ** The statements on the concrete trainer *)

Section Examples.
Import Example.

Ltac concrete_perm :=
  apply NoDup_Permutation;
  [ repeat constructor; simpl; intuition lia
  | repeat constructor; simpl; intuition lia
  | intros x; simpl; intuition lia ].

Lemma example_argsort_descending (q : list F) :
  In q query_feas ->
  descending_argsort (map (dot q) gallery_feas)
                     (argsort_desc (map (dot q) gallery_feas)).
Proof.
  intros Hin. vm_compute in Hin.
  repeat (destruct Hin as [<-|Hin]); [..|contradiction].
  all: split;
    [ vm_compute; concrete_perm
    | vm_compute; repeat constructor ].
Qed.

(** Why the entry of the matrix product is a parameter: in binary32 the
    dot product depends on the order of accumulation.  For
    [2^24; 1; 1] and [1; 1; 1] it is [2^24] from left to right and
    [2^24 + 2] from right to left. *)
Lemma dot_binary32_depends_on_order :
  let a := [Float32.of_Z_exp 1 24; fl 1; fl 1] in
  let b := [fl 1; fl 1; fl 1] in
  dot a b = Float32.of_Z_exp 1 24 /\
  dot (rev a) (rev b) = Float32.of_Z 16777218 /\
  Float32.gtb (dot (rev a) (rev b)) (dot a b) = true.
Proof. repeat split; vm_compute; reflexivity. Qed.

Lemma example_similarities_comparable (q : list F) :
  In q query_feas -> comparable (map (dot q) gallery_feas).
Proof.
  intros Hin. apply comparable_float32_iff. vm_compute in Hin.
  repeat (destruct Hin as [<-|Hin]); [..|contradiction].
  all: vm_compute; reflexivity.
Qed.

(** C1, at the stated generality: with three query rows and
    [num_split = 2] the split operator rejects the matrix, and with
    [print_batch_step = 0] the first progress check divides by zero;
    gallery and query set are non-empty in both cases and [eval]
    returns no recall.  And with an all-zero feature row in the gallery
    the division by its norm gives NaNs, the similarity row of the query
    is [1.0; NaN], the order [1; 0] is a descending sort of it (no later
    entry is greater than an earlier one), and [eval] returns 0.0,
    although gallery row 0 carries the query's label and its similarity
    1.0 is not below the chosen one.  On these rows every product is
    exact or NaN, so the two similarities do not depend on the order in
    which a kernel accumulates them. *)
Lemma eval_not_recall_on_nonempty_sets :
  (exists g, In g (all_rows (features 0) gallery)) /\
  (exists q, In q (all_rows (features 0) query3)) /\
  (exists q, In q (all_rows (features 0) query)) /\
  eval (features 0) argsort_desc dot 1 2 gallery query3
    = Raise InvalidArgument /\
  eval (features 0) argsort_desc dot 0 2 gallery query
    = Raise ZeroDivisionError /\
  all_rows (features 0) gallery_zero = [[f1; f0]; [S754_nan; S754_nan]] /\
  all_labels gallery_zero = [7; 8]%Z /\
  all_rows (features 0) query_one = [[f1; f0]] /\
  all_labels query_one = [7]%Z /\
  map (dot [f1; f0]) (all_rows (features 0) gallery_zero)
    = [f1; S754_nan] /\
  argsort_nan_first [f1; S754_nan] = [1; 0] /\
  descending_argsort [f1; S754_nan] [1; 0] /\
  fleb f1 S754_nan = false /\
  eval (features 0) argsort_nan_first dot 1 1 gallery_zero query_one
    = Ok f0.
Proof.
  split; [eexists; vm_compute; left; reflexivity|].
  split; [eexists; vm_compute; left; reflexivity|].
  split; [eexists; vm_compute; left; reflexivity|].
  repeat (split; [vm_compute; reflexivity|]).
  split; [|split; vm_compute; reflexivity].
  split; [concrete_perm | vm_compute; repeat constructor].
Qed.

Lemma eval_returns_recall_at_1_witness :
  eval (features 0) argsort_desc dot 1 2 gallery query
    = Ok (Float32.of_Z_exp 3 (-2)) /\
  nearest_index argsort_desc dot gallery_feas (nth 1 query_feas []) = 2 /\
  fleb (dot (nth 1 query_feas []) (nth 0 gallery_feas []))
       (dot (nth 1 query_feas []) (nth 2 gallery_feas [])) = true.
Proof.
  destruct (@eval_returns_recall_at_1 F _ Img (features 0) argsort_desc dot
              1 2 gallery query) as (E & _ & _ & Hnear).
  - vm_compute. discriminate.
  - vm_compute. discriminate.
  - discriminate.
  - discriminate.
  - vm_compute. reflexivity.
  - exact example_similarities_comparable.
  - exact example_argsort_descending.
  - split; [rewrite E; vm_compute; reflexivity|].
    split; [vm_compute; reflexivity|].
    destruct (Hnear (nth 1 query_feas [])) as (_ & _ & Hmax).
    + vm_compute. right. left. reflexivity.
    + destruct (Hmax 0) as [Hle _].
      * vm_compute. lia.
      * vm_compute. discriminate.
      * exact Hle.
Defined.

Lemma split_blocks_index_aligned_witness :
  exists fea_blocks,
    split 2 query_feas = Ok fea_blocks /\
    concat fea_blocks = query_feas /\
    choose_loop argsort_desc dot gallery_feas (all_labels gallery) fea_blocks None
      = Ok (Some [7; 9; 8; 7]%Z).
Proof.
  destruct (@split_blocks_index_aligned F argsort_desc dot gallery_feas
              (all_labels gallery) query_feas 2)
    as (blocks & Hsplit & _ & _ & Hconcat & _ & Hlabs).
  - discriminate.
  - vm_compute. reflexivity.
  - exists blocks. split; [exact Hsplit|]. split; [exact Hconcat|].
    apply (proj1 (Hlabs _)). vm_compute. reflexivity.
Defined.



Lemma periodic_metric_ignores_first_evaluation_witness :
  run_with (eval_fn cfg) cfg 0 = run_with (eval_other cfg) cfg 0.
Proof.
  refine (proj2 (proj2
    (@periodic_metric_ignores_first_evaluation F _ Img Net Out forward
       loss_func metric_func backward optimizer_step clear_grad lr_step
       init_model train_dataloader (eval_fn cfg) (eval_other cfg)
       _ _ cfg)) 0).
  - intros n e He. destruct e; [contradiction | reflexivity].
  - intros n. unfold eval_other. now destruct (eval_fn cfg n 0).
Defined.

Lemma train_resumes_after_best_epoch_witness :
  logged_epochs (fst (run cfg_resume 0)) = [2; 3] /\
  logged_epochs (fst (run cfg 0)) = [1; 2; 3].
Proof.
  split.
  - refine (proj2 (proj2
      (@train_resumes_after_best_epoch F _ Img Net Out forward loss_func
         metric_func backward optimizer_step clear_grad lr_step init_model
         (eval_fn cfg_resume) train_dataloader cfg_resume 0)) _).
    vm_compute. reflexivity.
  - refine (proj2 (proj2
      (@train_resumes_after_best_epoch F _ Img Net Out forward loss_func
         metric_func backward optimizer_step clear_grad lr_step init_model
         (eval_fn cfg) train_dataloader cfg 0)) _).
    vm_compute. reflexivity.
Defined.

Lemma train_terminates_bounded_iterations_witness :
  length (filter (@is_epoch_start F) (fst (run cfg 0))) = 3 /\
  length (filter (@is_forward F) (fst (run cfg 0))) = 6.
Proof.
  refine (proj2 (proj2 (proj2
    (@train_terminates_bounded_iterations F _ Img Net Out forward loss_func
       metric_func backward optimizer_step clear_grad lr_step init_model
       (eval_fn cfg) train_dataloader cfg 0))) _).
  vm_compute. reflexivity.
Defined.

Lemma one_update_per_batch_in_order_witness :
  exists k,
    filter (@is_update_event F) (fst (run cfg 0))
      = concat (repeat (update_sequence F) k) /\ k = 6.
Proof.
  destruct (proj2
    (@one_update_per_batch_in_order F _ Img Net Out forward loss_func
       metric_func backward optimizer_step clear_grad lr_step init_model
       (eval_fn cfg) train_dataloader cfg) 0) as (k & Hk & _ & Hfull).
  exists k. split; [exact Hk|].
  refine (proj1 (Hfull _)). vm_compute. reflexivity.
Defined.
End Examples.

Section MoreExamples.
Import Example.

Lemma best_metric_nondecreasing_best_model_saved_witness :
  saves_with best_prefix (fst (run cfg 0))
    = [(Float32.of_Z_exp 1 (-2), 1); (Float32.of_Z_exp 1 (-1), 2)] /\
  clos_refl_trans _ (@best_step F _)
    (resumed_best init_model cfg 0)
    {| metric := Float32.of_Z_exp 1 (-1); epoch := 2 |}.
Proof.
  split; [vm_compute; reflexivity|].
  refine (proj2
    (@best_metric_nondecreasing_best_model_saved F _ Img Net Out forward
       loss_func metric_func backward optimizer_step clear_grad lr_step
       init_model (eval_fn cfg) train_dataloader cfg) 0
       {| net := 6;
          best_metric := {| metric := Float32.of_Z_exp 1 (-1); epoch := 2 |};
          output_info := [];
          global_step := 6 |} _).
  vm_compute. reflexivity.
Defined.

Lemma periodic_checkpoint_on_save_interval_witness :
  map (fun x => (fst (fst x), snd x)) (periodic_saves (fst (run cfg 0)))
    = [("ppcls_epoch_2"%string, 2)].
Proof.
  refine (eq_trans (proj1 (proj2
    (@periodic_checkpoint_on_save_interval F _ Img Net Out forward
       loss_func metric_func backward optimizer_step clear_grad lr_step
       init_model (eval_fn cfg) train_dataloader cfg)) 0 _) _).
  - vm_compute. reflexivity.
  - vm_compute. reflexivity.
Defined.

Lemma logged_values_are_epoch_weighted_averages_witness :
  averages (batch_history forward loss_func metric_func backward
                          optimizer_step clear_grad lr_step
                          0 (train_dataloader 1))
    = [("loss"%string, Float32.of_Z_exp 9786709 (-22));
       ("top1"%string, Float32.of_Z_exp 13981013 (-23))].
Proof.
  destruct (proj1 (proj2
    (@logged_values_are_epoch_weighted_averages F _ Img Net Out forward
       loss_func metric_func backward optimizer_step clear_grad lr_step
       init_model (eval_fn cfg) train_dataloader cfg 0)) 1
       [("loss"%string, Float32.of_Z_exp 9786709 (-22));
        ("top1"%string, Float32.of_Z_exp 13981013 (-23))]) as [_ Hmsg].
  - vm_compute. repeat (first [left; reflexivity | right]).
  - symmetry. exact Hmsg.
Defined.
End MoreExamples.

(* ================================================================== *)
(** ** Facts about [_build_metric_info] and [_build_loss_info] *)

Section BuilderFacts.
Lemma nat_of_ascii_lower c :
  nat_of_ascii (ascii_lower c) =
  if (65 <=? nat_of_ascii c) && (nat_of_ascii c <=? 90)
  then nat_of_ascii c + 32 else nat_of_ascii c.
Proof.
  unfold ascii_lower.
  destruct ((65 <=? nat_of_ascii c) && (nat_of_ascii c <=? 90)) eqn:E;
    [|reflexivity].
  apply andb_prop in E as [_ E]. apply Nat.leb_le in E.
  apply nat_ascii_embedding. lia.
Qed.

Lemma nat_of_ascii_upper c :
  nat_of_ascii (ascii_upper c) =
  if (97 <=? nat_of_ascii c) && (nat_of_ascii c <=? 122)
  then nat_of_ascii c - 32 else nat_of_ascii c.
Proof.
  unfold ascii_upper.
  destruct ((97 <=? nat_of_ascii c) && (nat_of_ascii c <=? 122)) eqn:E;
    [|reflexivity].
  apply andb_prop in E as [_ E]. apply Nat.leb_le in E.
  apply nat_ascii_embedding. lia.
Qed.

Lemma nat_of_ascii_inj c c' : nat_of_ascii c = nat_of_ascii c' -> c = c'.
Proof.
  intros E. rewrite <- (ascii_nat_embedding c), <- (ascii_nat_embedding c').
  now rewrite E.
Qed.

Lemma ascii_upper_of_same_lower c c' :
  ascii_lower c = ascii_lower c' -> ascii_upper c = ascii_upper c'.
Proof.
  intros E. apply (f_equal nat_of_ascii) in E.
  rewrite !nat_of_ascii_lower in E.
  apply nat_of_ascii_inj. rewrite !nat_of_ascii_upper.
  set (n := nat_of_ascii c) in *. set (n' := nat_of_ascii c') in *.
  destruct (Nat.leb_spec 65 n), (Nat.leb_spec n 90),
           (Nat.leb_spec 65 n'), (Nat.leb_spec n' 90),
           (Nat.leb_spec 97 n), (Nat.leb_spec n 122),
           (Nat.leb_spec 97 n'), (Nat.leb_spec n' 122);
    cbn [andb] in *; lia.
Qed.

Lemma capitalize_of_same_lower m1 m2 :
  string_lower m1 = string_lower m2 -> capitalize m1 = capitalize m2.
Proof.
  destruct m1 as [|c1 r1], m2 as [|c2 r2]; cbn; try discriminate;
    [reflexivity|].
  intros E. injection E as Ec Er.
  now rewrite (ascii_upper_of_same_lower _ _ Ec), Er.
Qed.

Lemma dict_get_mem {V} key (d : dict V) :
  dict_mem key d = true <-> exists v, dict_get key d = Ok v.
Proof.
  unfold dict_mem, dict_get.
  induction d as [|kv d IH]; cbn.
  - split; [discriminate | intros [v E]; discriminate E].
  - destruct (String.eqb (fst kv) key); cbn.
    + split; [intros _; now exists (snd kv) | reflexivity].
    + exact IH.
Qed.

Variables MetricCfg Metric LossCfg Loss : Type.
Variable build_metrics : MetricCfg -> Metric.
Variable build_loss : LossCfg -> Loss.

Lemma build_info_cases {C B} (build : C -> B) (config : dict (option C)) mode :
  build_info build config mode =
  match dict_get (capitalize mode) config with
  | Ok (Some c) => Some (build c)
  | _ => None
  end.
Proof.
  unfold build_info.
  destruct (dict_mem (capitalize mode) config) eqn:Em; [reflexivity|].
  destruct (dict_get (capitalize mode) config) as [v|e] eqn:Eg;
    [|reflexivity].
  assert (H : dict_mem (capitalize mode) config = true)
    by (apply dict_get_mem; now exists v).
  congruence.
Qed.

(** X15: [_build_metric_info] and [_build_loss_info] never raise on a
    config without the mode: they return [None] when the capitalised
    mode is not a key or is bound to [None], and the built object
    otherwise; and the mode is matched whatever its letter case: two
    ASCII modes that agree up to case select the same entry. *)
Theorem build_info_by_capitalised_mode
    (metric_config : dict (option MetricCfg))
    (loss_config : dict (option LossCfg)) :
  (forall mode,
      _build_metric_info build_metrics metric_config mode =
        match dict_get (capitalize mode) metric_config with
        | Ok (Some c) => Some (build_metrics c)
        | Ok None | Raise _ => None
        end /\
      _build_loss_info build_loss loss_config mode =
        match dict_get (capitalize mode) loss_config with
        | Ok (Some c) => Some (build_loss c)
        | Ok None | Raise _ => None
        end) /\
  (forall m1 m2,
      is_ascii_string m1 = true -> is_ascii_string m2 = true ->
      string_lower m1 = string_lower m2 ->
      _build_metric_info build_metrics metric_config m1 =
        _build_metric_info build_metrics metric_config m2 /\
      _build_loss_info build_loss loss_config m1 =
        _build_loss_info build_loss loss_config m2).
Proof.
  split.
  - intros mode. unfold _build_metric_info, _build_loss_info.
    now rewrite !build_info_cases.
  - intros m1 m2 _ _ E. unfold _build_metric_info, _build_loss_info.
    rewrite !build_info_cases.
    now rewrite (capitalize_of_same_lower _ _ E).
Qed.
End BuilderFacts.

(* ================================================================== *)
(** ** The edge behaviour on the concrete trainer *)

Section EdgeExamples.
Import Example Example2.

Lemma eval_zero_print_step_raises_witness :
  eval (features 0) argsort_desc dot 0 2 gallery query = Raise ZeroDivisionError.
Proof.
  apply (eval_zero_print_step_raises (features 0) argsort_desc dot 2
           (gallery := gallery) query).
  discriminate.
Defined.

Lemma eval_indivisible_split_raises_witness :
  eval (features 0) argsort_desc dot 1 2 gallery query3 = Raise InvalidArgument.
Proof.
  apply (eval_indivisible_split_raises (features 0) argsort_desc dot
           (pbs := 1) (num_split := 2)
           (gallery := gallery) (query := query3)).
  - discriminate.
  - discriminate.
  - discriminate.
  - right. vm_compute. discriminate.
Defined.

Lemma eval_independent_of_num_split_witness :
  eval (features 0) argsort_desc dot 1 4 gallery query
    = Ok (Float32.of_Z_exp 3 (-2)).
Proof.
  apply (proj2 (eval_independent_of_num_split (features 0) argsort_desc dot 1
                  (n1 := 4) (n2 := 1) gallery query
                  ltac:(discriminate) ltac:(vm_compute; reflexivity)
                  ltac:(discriminate) ltac:(vm_compute; reflexivity)
                  (Float32.of_Z_exp 3 (-2)))).
  vm_compute. reflexivity.
Defined.

Lemma recall_between_0_and_1_witness :
  match eval features_R argsort_R dot 1 1 gallery_R query_R with
  | Ok recall => (0 <= recall <= 1)%R
  | Raise _ => True
  end.
Proof.
  apply (@recall_between_0_and_1 R features_R argsort_R dot 1 1
           gallery_R query_R).
  discriminate.
Defined.

Lemma normalize_scale_invariant_witness :
  normalize (map (Rmult 2) [3; 4]%R) = normalize [3; 4]%R.
Proof.
  apply (@normalize_scale_invariant 2%R [3; 4]%R).
  - lra.
  - exists 3%R. split; [now left | lra].
Defined.

Lemma train_nothing_to_do_after_final_epoch_witness :
  run cfg_done 0 =
  ([InitModel "output/latest"],
   Ok {| net := 10;
         best_metric := {| metric := fl 0; epoch := 1 |};
         output_info := [];
         global_step := 0 |}).
Proof.
  refine (eq_trans
    (@train_nothing_to_do_after_final_epoch F _ Img Net Out forward
       loss_func metric_func backward optimizer_step clear_grad lr_step
       init_model (eval_fn cfg_done) train_dataloader cfg_done 0 _) _).
  - vm_compute. lia.
  - vm_compute. reflexivity.
Defined.

Lemma train_aborts_when_first_evaluation_raises_witness :
  run cfg_zero_print 0 = ([EvalCall 0], Raise ZeroDivisionError).
Proof.
  refine (@train_aborts_when_first_evaluation_raises F _ Img Net Out
            forward loss_func metric_func backward optimizer_step
            clear_grad lr_step init_model (eval_fn cfg_zero_print)
            train_dataloader cfg_zero_print 0 ZeroDivisionError _ _).
  - vm_compute. lia.
  - vm_compute. reflexivity.
Defined.

Lemma train_zero_save_interval_raises_witness :
  is_ok (snd (run cfg_zero_save 0)) = false /\
  snd (run cfg_zero_save 0) = Raise ZeroDivisionError.
Proof.
  destruct (@train_zero_save_interval_raises F _ Img Net Out
              forward loss_func metric_func backward optimizer_step
              clear_grad lr_step init_model (eval_fn cfg_zero_save)
              train_dataloader cfg_zero_save 0)
    as (Hnok & _ & _ & Hzero).
  - reflexivity.
  - vm_compute. lia.
  - split; [exact Hnok|].
    refine (Hzero {| net := 2;
                     best_metric := {| metric := fl 0; epoch := 0 |};
                     output_info := record_all []
                       (batch_history forward loss_func metric_func backward
                          optimizer_step clear_grad lr_step 0
                          (train_dataloader 1));
                     global_step := 2 |} _ _ _).
    + vm_compute. reflexivity.
    + vm_compute. reflexivity.
    + intros _. vm_compute. reflexivity.
Defined.

Lemma train_without_eval_during_train_witness :
  saves_with best_prefix (fst (run cfg_no_eval 0)) = [] /\
  periodic_saves (fst (run cfg_no_eval 0))
    = [("ppcls_epoch_2"%string, fl 0, 2)].
Proof.
  split.
  - refine (proj1
      (@train_without_eval_during_train F _ Img Net Out forward loss_func
         metric_func backward optimizer_step clear_grad lr_step init_model
         (eval_fn cfg_no_eval) train_dataloader cfg_no_eval 0 _)).
    reflexivity.
  - vm_compute. reflexivity.
Defined.

Lemma global_step_counts_batches_witness :
  global_step {| net := 6;
                 best_metric := {| metric := Float32.of_Z_exp 1 (-1);
                                   epoch := 2 |};
                 output_info := [];
                 global_step := 6 |} =
  total_batches train_dataloader [1; 2; 3].
Proof.
  refine (@global_step_counts_batches F _ Img Net Out forward loss_func
            metric_func backward optimizer_step clear_grad lr_step
            init_model (eval_fn cfg) train_dataloader cfg 0 _ _).
  vm_compute. reflexivity.
Defined.

Lemma train_missing_loss_key_never_updates_witness :
  filter (@is_update_event F) (fst (run_unnamed cfg 0)) = [] /\
  snd (run_unnamed cfg 0) = Raise KeyError.
Proof.
  split.
  - refine (proj1
      (@train_missing_loss_key_never_updates F _ Img Net Out forward
         loss_func_unnamed metric_func backward optimizer_step clear_grad
         lr_step init_model (eval_fn cfg) train_dataloader _ cfg 0)).
    intros out labels. reflexivity.
  - vm_compute. reflexivity.
Defined.

Lemma periodic_prefix_injective_witness : 12 = 12.
Proof.
  apply (@periodic_prefix_injective 12 12). reflexivity.
Defined.

Lemma best_model_saves_strictly_increase_witness :
  increasing_from (fl 0)
    (map fst (saves_with best_prefix (fst (run cfg 0)))) /\
  map fst (saves_with best_prefix (fst (run cfg 0)))
    = [Float32.of_Z_exp 1 (-2); Float32.of_Z_exp 1 (-1)].
Proof.
  split.
  - exact (proj1
      (@best_model_saves_strictly_increase F _ Img Net Out forward
         loss_func metric_func backward optimizer_step clear_grad lr_step
         init_model (eval_fn cfg) train_dataloader cfg 0)).
  - vm_compute. reflexivity.
Defined.

Lemma build_info_by_capitalised_mode_witness :
  _build_loss_info (fun n => n + 1) loss_config "TRAIN" = Some 4 /\
  _build_loss_info (fun n => n + 1) loss_config "train"
    = _build_loss_info (fun n => n + 1) loss_config "TRAIN".
Proof.
  split; [vm_compute; reflexivity|].
  refine (proj2 (proj2
    (@build_info_by_capitalised_mode nat nat nat nat
       (fun n => n + 1) (fun n => n + 1) loss_config loss_config)
    "train"%string "TRAIN"%string _ _ _)).
  all: reflexivity.
Defined.
End EdgeExamples.
